(** * Login throttling and persistent sessions of FlaskWebsite

    A shallow embedding of [core/database.py] (the [DatabaseCommands] that
    throttle login attempts) and of the [PersistentLogin] model of
    [flaskapp/database/models/user.py], with the properties the
    specification states about them. *)

From Stdlib Require Import ZArith List String Ascii Bool Lia DecimalString.
Import ListNotations.
Local Open Scope Z_scope.

(** ** Python values shared by both files *)

(** [str(n)] for a Python integer, as ['{}'.format(n)] prints it. *)
Definition str (n : Z) : string := NilZero.string_of_int (Z.to_int n).

(** Exceptions the two files raise or catch. *)
Inductive exn : Type :=
| IndexError
| AttributeError.

Inductive result (A : Type) : Type :=
| Ok (a : A)
| Raise (e : exn).
Arguments Ok {A} a.
Arguments Raise {A} e.

(** Code with side effects on a state [S] that may raise. *)
Definition M (S A : Type) : Type := S -> result A * S.

Definition ret {S A : Type} (a : A) : M S A := fun s => (Ok a, s).

Definition bind {S A B : Type} (c : M S A) (k : A -> M S B) : M S B :=
  fun s =>
    match c s with
    | (Ok a, s') => k a s'
    | (Raise e, s') => (Raise e, s')
    end.

Definition raise {S A : Type} (e : exn) : M S A := fun s => (Raise e, s).

(** [try: c  except IndexError: h]. *)
Definition try_except_IndexError {S A : Type} (c h : M S A) : M S A :=
  fun s =>
    match c s with
    | (Raise IndexError, s') => h s'
    | r => r
    end.

Notation "x <- c ;; k" := (bind c (fun x => k))
  (at level 61, c at next level, right associativity).
Notation "c ;;; k" := (bind c (fun _ => k))
  (at level 61, right associativity).

(** [rows[0][0]] on a fetched result: the first row, or IndexError. *)
Definition index0 {S A : Type} (rows : list A) : M S A :=
  match rows with
  | [] => raise IndexError
  | a :: _ => ret a
  end.

(** ** core/database.py *)
Module Core.

(** [core.constants] is not part of the sources: its values are parameters. *)
Class Constants : Type := {
  BAN_TIME_IP : Z;
  BAN_TIME_ACCOUNT : Z;
  MAX_LOGIN_ATTEMPTS_IP : Z;
  MAX_LOGIN_ATTEMPTS_ACCOUNT : Z
}.

(** [core.hash] is not part of the sources either. *)
Class Hash : Type := {
  quick_hash : string -> string;
  password_check : string -> string -> bool
}.

(** *** Tables *)

Module emails.
Record row : Type := { id : Z; email_address : string; time_added : Z }.
End emails.

Module accounts.
Record row : Type := {
  id : Z;
  email_id : Z;
  username : string;
  password : string;
  password_changed : Z;
  register_time : Z;
  last_activity : Z;
  credits : Z;
  permission : Z;
  activated : Z;
  ban_until : Z;
  ban_count : Z
}.
End accounts.

Module ip_addresses.
Record row : Type := { id : Z; ban_until : Z; ban_count : Z }.
End ip_addresses.

Module login_attempts.
Record row : Type := {
  id : Z;
  field_data : string;
  ip_id : Z;
  attempt_time : Z;
  success : Z
}.
End login_attempts.

(** The database: the rows of each table in storage order, and the
    AUTO_INCREMENT counters of the two tables the code inserts into. *)
Record Tables : Type := {
  tbl_emails : list emails.row;
  tbl_accounts : list accounts.row;
  tbl_ip_addresses : list ip_addresses.row;
  tbl_login_attempts : list login_attempts.row;
  next_email_id : Z;
  next_attempt_id : Z
}.

(** *** SQL statements

    One constructor per statement text that [DatabaseCommands] passes to
    [self.sql], with the statement's arguments. *)
Inductive statement : Type :=
| SELECT_email_id (email : string)
| INSERT_email (email : string)
| SELECT_account_by_email_id (email_id : Z)
| SELECT_account_by_username (username : string)
| SELECT_count_ip_attempts (window ip_id : Z)
| SELECT_ban_remaining (account_id : Z)
| SELECT_last_login (hash : string)
| SELECT_count_account_attempts (last_login window : Z) (hash : string)
| SELECT_ban_offset (offset : Z) (hash : string)
| UPDATE_ban_ip (length ip_id : Z)
| UPDATE_ban_account (length account_id : Z)
| INSERT_login_attempt (hash : string) (ip_id success : Z)
| SELECT_login_data (account_id : option Z).

(** What [DatabaseConnection.sql] returns: the count for
    [SELECT count( * )], the fetched rows for other SELECTs, the number of
    records for UPDATE, [lastrowid] for INSERT. *)
Definition answer (q : statement) : Type :=
  match q with
  | SELECT_email_id _ => list Z
  | INSERT_email _ => Z
  | SELECT_account_by_email_id _ => list Z
  | SELECT_account_by_username _ => list Z
  | SELECT_count_ip_attempts _ _ => Z
  | SELECT_ban_remaining _ => list Z
  | SELECT_last_login _ => list Z
  | SELECT_count_account_attempts _ _ _ => Z
  | SELECT_ban_offset _ _ => list Z
  | UPDATE_ban_ip _ _ => Z
  | UPDATE_ban_account _ _ => Z
  | INSERT_login_attempt _ _ _ => Z
  | SELECT_login_data _ => list accounts.row
  end.

(** [ORDER BY ... DESC] on one integer column. *)
Fixpoint insert_desc (x : Z) (l : list Z) : list Z :=
  match l with
  | [] => [x]
  | y :: l' => if y <=? x then x :: l else y :: insert_desc x l'
  end.

Fixpoint order_by_desc (l : list Z) : list Z :=
  match l with
  | [] => []
  | x :: l' => insert_desc x (order_by_desc l')
  end.

Definition count {A : Type} (where_ : A -> bool) (rows : list A) : Z :=
  Z.of_nat (List.length (filter where_ rows)).

(** The WHERE clauses over [login_attempts]. *)
Definition where_ip_attempts (now window ip : Z) (r : login_attempts.row) : bool :=
  (login_attempts.success r >=? 0)
  && (login_attempts.attempt_time r >? now - window)
  && (login_attempts.ip_id r =? ip).

Definition where_last_login (hash : string) (r : login_attempts.row) : bool :=
  (login_attempts.success r =? 1)
  && String.eqb (login_attempts.field_data r) hash.

Definition where_account_attempts (now last_login window : Z) (hash : string)
    (r : login_attempts.row) : bool :=
  (login_attempts.attempt_time r >? Z.max last_login (now - window))
  && String.eqb (login_attempts.field_data r) hash.

Definition where_ban_offset (hash : string) (r : login_attempts.row) : bool :=
  (login_attempts.success r <? 1)
  && String.eqb (login_attempts.field_data r) hash.

(** [SET ban_until = UNIX_TIMESTAMP(NOW()) + length, ban_count = ban_count + 1]. *)
Definition set_ban_ip (now length ip : Z) (r : ip_addresses.row) : ip_addresses.row :=
  if ip_addresses.id r =? ip
  then {| ip_addresses.id := ip_addresses.id r;
          ip_addresses.ban_until := now + length;
          ip_addresses.ban_count := ip_addresses.ban_count r + 1 |}
  else r.

Definition set_ban_account (now length account : Z) (r : accounts.row) : accounts.row :=
  if accounts.id r =? account
  then {| accounts.id := accounts.id r;
          accounts.email_id := accounts.email_id r;
          accounts.username := accounts.username r;
          accounts.password := accounts.password r;
          accounts.password_changed := accounts.password_changed r;
          accounts.register_time := accounts.register_time r;
          accounts.last_activity := accounts.last_activity r;
          accounts.credits := accounts.credits r;
          accounts.permission := accounts.permission r;
          accounts.activated := accounts.activated r;
          accounts.ban_until := now + length;
          accounts.ban_count := accounts.ban_count r + 1 |}
  else r.

Definition with_emails (t : Tables) (rows : list emails.row) (next : Z) : Tables :=
  {| tbl_emails := rows; tbl_accounts := tbl_accounts t;
     tbl_ip_addresses := tbl_ip_addresses t;
     tbl_login_attempts := tbl_login_attempts t;
     next_email_id := next; next_attempt_id := next_attempt_id t |}.

Definition with_accounts (t : Tables) (rows : list accounts.row) : Tables :=
  {| tbl_emails := tbl_emails t; tbl_accounts := rows;
     tbl_ip_addresses := tbl_ip_addresses t;
     tbl_login_attempts := tbl_login_attempts t;
     next_email_id := next_email_id t; next_attempt_id := next_attempt_id t |}.

Definition with_ip_addresses (t : Tables) (rows : list ip_addresses.row) : Tables :=
  {| tbl_emails := tbl_emails t; tbl_accounts := tbl_accounts t;
     tbl_ip_addresses := rows;
     tbl_login_attempts := tbl_login_attempts t;
     next_email_id := next_email_id t; next_attempt_id := next_attempt_id t |}.

Definition with_login_attempts (t : Tables) (rows : list login_attempts.row)
    (next : Z) : Tables :=
  {| tbl_emails := tbl_emails t; tbl_accounts := tbl_accounts t;
     tbl_ip_addresses := tbl_ip_addresses t;
     tbl_login_attempts := rows;
     next_email_id := next_email_id t; next_attempt_id := next |}.

(** The effect of one statement run at server time [now]
    ([UNIX_TIMESTAMP(NOW())]): its answer and the tables it leaves. *)
Definition exec (q : statement) (now : Z) (t : Tables) : answer q * Tables :=
  match q return answer q * Tables with
  | SELECT_email_id email =>
      (map emails.id
         (filter (fun r => String.eqb (emails.email_address r) email) (tbl_emails t)), t)
  | INSERT_email email =>
      (next_email_id t,
       with_emails t
         (tbl_emails t ++ [{| emails.id := next_email_id t;
                              emails.email_address := email;
                              emails.time_added := now |}])
         (next_email_id t + 1))
  | SELECT_account_by_email_id email_id =>
      (map accounts.id
         (filter (fun r => accounts.email_id r =? email_id) (tbl_accounts t)), t)
  | SELECT_account_by_username username =>
      (map accounts.id
         (filter (fun r => String.eqb (accounts.username r) username) (tbl_accounts t)), t)
  | SELECT_count_ip_attempts window ip =>
      (count (where_ip_attempts now window ip) (tbl_login_attempts t), t)
  | SELECT_ban_remaining account =>
      (map (fun r => Z.max (accounts.ban_until r) now - now)
         (filter (fun r => accounts.id r =? account) (tbl_accounts t)), t)
  | SELECT_last_login hash =>
      (firstn 1 (order_by_desc
         (map login_attempts.attempt_time
            (filter (where_last_login hash) (tbl_login_attempts t)))), t)
  | SELECT_count_account_attempts last_login window hash =>
      (count (where_account_attempts now last_login window hash)
         (tbl_login_attempts t), t)
  | SELECT_ban_offset offset hash =>
      (firstn 1 (skipn (Z.to_nat offset)
         (map (fun at_ => now - at_)
            (order_by_desc
               (map login_attempts.attempt_time
                  (filter (where_ban_offset hash) (tbl_login_attempts t)))))), t)
  | UPDATE_ban_ip length ip =>
      (count (fun r => ip_addresses.id r =? ip) (tbl_ip_addresses t),
       with_ip_addresses t (map (set_ban_ip now length ip) (tbl_ip_addresses t)))
  | UPDATE_ban_account length account =>
      (count (fun r => accounts.id r =? account) (tbl_accounts t),
       with_accounts t (map (set_ban_account now length account) (tbl_accounts t)))
  | INSERT_login_attempt hash ip success =>
      (next_attempt_id t,
       with_login_attempts t
         (tbl_login_attempts t ++ [{| login_attempts.id := next_attempt_id t;
                                      login_attempts.field_data := hash;
                                      login_attempts.ip_id := ip;
                                      login_attempts.attempt_time := now;
                                      login_attempts.success := success |}])
         (next_attempt_id t + 1))
  | SELECT_login_data account_id =>
      (match account_id with
       | Some a => filter (fun r => accounts.id r =? a) (tbl_accounts t)
       | None => []
       end, t)
  end.

(** *** The connection

    The state a [DatabaseConnection] works on: the tables, the server clock
    (the time the n-th statement of the connection runs at; each statement
    reads [NOW()] afresh) and the statements executed so far. *)
Record World : Type := {
  tables : Tables;
  clock : nat -> Z;
  trace : list statement
}.

Definition now (w : World) : Z := clock w (List.length (trace w)).

(** [DatabaseConnection.sql]: execute, commit, and return the answer. *)
Definition sql (q : statement) : M World (answer q) :=
  fun w =>
    let '(a, t) := exec q (now w) (tables w) in
    (Ok a, {| tables := t; clock := clock w; trace := trace w ++ [q] |}).

(** Python truth of an account id ([None] and [0] are false). *)
Definition truthy (account_id : option Z) : option Z :=
  match account_id with
  | Some a => if a =? 0 then None else Some a
  | None => None
  end.

(** *** DatabaseCommands

    The [print] calls under [if not PRODUCTION_SERVER] only write to the
    console and are left out. *)
Section DatabaseCommands.
Context {constants : Constants} {hashing : Hash}.

Definition get_email_id (email : string) (insert : bool) : M World Z :=
  try_except_IndexError
    (rows <- sql (SELECT_email_id email) ;; index0 rows)
    (if insert then sql (INSERT_email email) else ret 0).

Definition get_account_id (email username : option string) (email_id : option Z)
    : M World Z :=
  match email_id, email, username with
  | Some login_value, _, _ =>
      try_except_IndexError
        (rows <- sql (SELECT_account_by_email_id login_value) ;; index0 rows)
        (ret 0)
  | None, Some email, _ =>
      login_value <- get_email_id email true ;;
      try_except_IndexError
        (rows <- sql (SELECT_account_by_email_id login_value) ;; index0 rows)
        (ret 0)
  | None, None, Some login_value =>
      try_except_IndexError
        (rows <- sql (SELECT_account_by_username login_value) ;; index0 rows)
        (ret 0)
  | None, None, None => ret 0
  end.

Definition ban_ip (ip_id length : Z) : M World Z :=
  sql (UPDATE_ban_ip length ip_id) ;;;
  ret length.

Definition ban_account (account_id : option Z) (length : Z) : M World Z :=
  match truthy account_id with
  | Some a => sql (UPDATE_ban_account length a) ;;; ret length
  | None => ret length
  end.

Definition failed_logins_ip (ip_id : Z) : M World Z :=
  login_attempts <- sql (SELECT_count_ip_attempts BAN_TIME_IP ip_id) ;;
  let remaining_attempts := MAX_LOGIN_ATTEMPTS_IP - login_attempts in
  if remaining_attempts <=? 0
  then ban_ip ip_id BAN_TIME_IP ;;; ret remaining_attempts
  else ret remaining_attempts.

(** The first block of [failed_logins_account] ("Check if banned"): the
    ban window the account row holds, 0 without an account. *)
Definition check_banned (account_id : option Z) : M World Z :=
  match truthy account_id with
  | Some a =>
      try_except_IndexError
        (rows <- sql (SELECT_ban_remaining a) ;; index0 rows)
        (ret 0)
  | None => ret 0
  end.

Definition failed_logins_account (account_id : option Z) (field_data : string)
    : M World (Z * Z) :=
  let hash := quick_hash field_data in
  ban_remaining <- check_banned account_id ;;
  if negb (ban_remaining =? 0) then ret (0, ban_remaining)
  else
    last_login <- try_except_IndexError
                    (rows <- sql (SELECT_last_login hash) ;; index0 rows)
                    (ret 0) ;;
    failed_logins <-
      sql (SELECT_count_account_attempts last_login BAN_TIME_ACCOUNT hash) ;;
    let remaining_attempts := MAX_LOGIN_ATTEMPTS_ACCOUNT - failed_logins in
    if remaining_attempts <=? 0 then
      ban_remaining <- ban_account account_id BAN_TIME_ACCOUNT ;;
      match truthy account_id with
      | Some _ => ret (remaining_attempts, ban_remaining)
      | None =>
          ban_offset <- try_except_IndexError
                          (rows <- sql (SELECT_ban_offset (- remaining_attempts) hash) ;;
                           index0 rows)
                          (ret 0) ;;
          ret (remaining_attempts, ban_remaining - ban_offset)
      end
    else ret (remaining_attempts, ban_remaining).

Definition login_attempt_record (field_data : string) (ip_id success : Z) : M World Z :=
  sql (INSERT_login_attempt (quick_hash field_data) ip_id success).

(** The [data] dictionary that [login] returns. *)
Record AccountData : Type := {
  data_id : option Z;
  data_email_id : Z;
  data_username : string;
  data_pw_update : Z;
  data_created : Z;
  data_last_seen : Z;
  data_credits : Z;
  data_permission : Z;
  data_activated : Z;
  data_ban_until : Z
}.

Record LoginData : Type := {
  account : option AccountData;
  warnings : list string;
  errors : list string;
  status : Z
}.

Definition plural (n : Z) : string := if n =? 1 then EmptyString else "s"%string.

Definition ip_warning (remaining_attempts : Z) : string :=
  ("You have " ++ str remaining_attempts ++ " more login attempt"
   ++ plural remaining_attempts
   ++ " until your IP is temporarily banned.")%string.

Definition account_warning (remaining_attempts : Z) : string :=
  ("You have " ++ str remaining_attempts ++ " more login attempt"
   ++ plural remaining_attempts
   ++ " before this account is temporarily disabled.")%string.

Definition ban_error (ban_remaining : Z) : string :=
  ("Your account is disabled for another " ++ str ban_remaining
   ++ " seconds.")%string.

Definition account_data (account_id : option Z) (r : accounts.row) : AccountData :=
  {| data_id := account_id;
     data_email_id := accounts.email_id r;
     data_username := accounts.username r;
     data_pw_update := accounts.password_changed r;
     data_created := accounts.register_time r;
     data_last_seen := accounts.last_activity r;
     data_credits := accounts.credits r;
     data_permission := accounts.permission r;
     data_activated := accounts.activated r;
     data_ban_until := accounts.ban_until r |}.

(** The credential check at the head of [login]: [valid], the account
    fields and the errors so far. *)
Definition check_credentials (account_id : option Z) (password : string)
    (login_data : list accounts.row) : Z * option AccountData * list string :=
  match login_data with
  | r :: _ =>
      if password_check password (accounts.password r)
      then (1, Some (account_data account_id r), [])
      else (0, None, ["Incorrect login details"%string])
  | [] => (0, None, ["Incorrect login details"%string])
  end.

Definition login (account_id : option Z) (password : string)
    (ip_id : option Z) (form_data : option string) : M World LoginData :=
  login_data <- sql (SELECT_login_data account_id) ;;
  let '(valid, acc, errs) := check_credentials account_id password login_data in
  match ip_id, form_data with
  | Some ip_id, Some form_data =>
      login_attempt_record form_data ip_id valid ;;;
      remaining_attempts <- failed_logins_ip ip_id ;;
      let warns :=
        if remaining_attempts <=? 10 then [ip_warning remaining_attempts] else [] in
      r <- failed_logins_account account_id form_data ;;
      let '(remaining_attempts, ban_remaining) := r in
      if ban_remaining >? 0 then
        ret {| account := acc; warnings := warns;
               errors := errs ++ [ban_error ban_remaining]; status := -1 |}
      else if remaining_attempts <=? 10 then
        ret {| account := acc;
               warnings := warns ++ [account_warning remaining_attempts];
               errors := errs; status := valid |}
      else
        ret {| account := acc; warnings := warns; errors := errs; status := valid |}
  | _, _ =>
      ret {| account := acc; warnings := []; errors := errs; status := valid |}
  end.

End DatabaseCommands.

(** *** Vocabulary of the properties *)

(** The answer of a statement in a world, and the world it leaves. *)
Definition answered (q : statement) (w : World) : answer q :=
  fst (exec q (now w) (tables w)).

Definition after (q : statement) (w : World) : World :=
  {| tables := snd (exec q (now w) (tables w));
     clock := clock w;
     trace := trace w ++ [q] |}.


(** The log is well formed when every [success] is -1, 0 or 1, the three
    values of the data model. *)
Definition well_formed_log (log : list login_attempts.row) : Prop :=
  forall r, In r log -> -1 <= login_attempts.success r <= 1.

Section Call.
Context {constants : Constants} {hashing : Hash}.

(** The outcome [valid] of the credential check of a [login] call. *)
Definition credential_outcome (account_id : option Z) (password : string)
    (w : World) : Z :=
  fst (fst (check_credentials account_id password
              (answered (SELECT_login_data account_id) w))).

(** The world in which [login] starts its throttle checks: the account
    has been read and the attempt recorded. *)
Definition recorded (account_id : option Z) (password : string) (ip : Z)
    (form_data : string) (w : World) : World :=
  after (INSERT_login_attempt (quick_hash form_data) ip
           (credential_outcome account_id password w))
    (after (SELECT_login_data account_id) w).

(** The row that the call appends to the attempt log. *)
Definition current_attempt (account_id : option Z) (password : string) (ip : Z)
    (form_data : string) (w : World) : login_attempts.row :=
  {| login_attempts.id := next_attempt_id (tables w);
     login_attempts.field_data := quick_hash form_data;
     login_attempts.ip_id := ip;
     login_attempts.attempt_time := now (after (SELECT_login_data account_id) w);
     login_attempts.success := credential_outcome account_id password w |}.

(** Whether a count statement run at [time] selects the row [r]. *)
Definition selects (q : statement) (time : Z) (r : login_attempts.row) : bool :=
  match q with
  | SELECT_count_ip_attempts window ip => where_ip_attempts time window ip r
  | SELECT_count_account_attempts last_login window h =>
      where_account_attempts time last_login window h r
  | _ => true
  end.

(** "The current attempt is included in the counts": every count
    statement that the call runs selects the row the call recorded. The
    i-th statement of the connection runs at time [clock w i]. *)
Definition current_attempt_in_all_counts (account_id : option Z)
    (password : string) (ip : Z) (form_data : string) (w : World) : Prop :=
  forall i q,
    (List.length (trace w) <= i)%nat ->
    nth_error (trace (snd (login account_id password (Some ip) (Some form_data) w))) i
    = Some q ->
    selects q (clock w i) (current_attempt account_id password ip form_data w) = true.

(** "login embeds the negative number in the IP and account warnings":
    a negative value returned by either check appears in the warning of
    that check. *)
Definition negative_values_in_warnings (account_id : option Z)
    (password : string) (ip : Z) (form_data : string) (w : World) : Prop :=
  forall r_ip w2 r_acc ban w3 res,
    failed_logins_ip ip (recorded account_id password ip form_data w) = (Ok r_ip, w2) ->
    failed_logins_account account_id form_data w2 = (Ok (r_acc, ban), w3) ->
    fst (login account_id password (Some ip) (Some form_data) w) = Ok res ->
    (r_ip < 0 -> In (ip_warning r_ip) (warnings res))
    /\ (r_acc < 0 -> In (account_warning r_acc) (warnings res)).

End Call.

(** The greatest of a list of times, 0 for the empty list: what the
    specification calls the time of the most recent success. *)
Fixpoint most_recent (times : list Z) : Z :=
  match times with
  | [] => 0
  | t :: ts => match ts with [] => t | _ :: _ => Z.max t (most_recent ts) end
  end.

End Core.

(** ** flaskapp/database/models/user.py *)
Module Models.

(** [flaskapp.utils.hash] and [flaskapp.common] are not part of the
    sources: the hash functions are parameters, and the random values
    ([quick_hash()] without an argument, [generate_uuid()]) and the time
    are passed in by the caller. *)
Class Hash : Type := {
  quick_hash : string -> string;
  password_hash : string -> string
}.

Module Email.
Record row : Type := {
  row_id : Z;
  address : string;
  created : Z;
  updated : Z
}.
End Email.

Module User.
Record row : Type := {
  row_id : Z;
  email_id : Z;
  username : option string;
  password : string;
  activated : bool;
  permission : Z;
  password_edited : Z;
  created : Z;
  updated : Z
}.
End User.

Module PersistentLogin.
Record row : Type := {
  row_id : Z;
  user_id : Z;
  identifier : string;
  token : string;
  created : Z;
  updated : Z
}.
End PersistentLogin.

(** The three tables the session code reads and writes. *)
Record Store : Type := {
  tbl_Email : list Email.row;
  tbl_User : list User.row;
  tbl_PersistentLogin : list PersistentLogin.row;
  next_PersistentLogin_id : Z
}.

(** [db.session]: the rows its queries see (pending changes are flushed
    before every query) and the rows last committed. *)
Record Orm : Type := {
  working : Store;
  committed : Store
}.

Definition with_PersistentLogin (s : Store) (rows : list PersistentLogin.row)
    : Store :=
  {| tbl_Email := tbl_Email s; tbl_User := tbl_User s;
     tbl_PersistentLogin := rows;
     next_PersistentLogin_id := next_PersistentLogin_id s |}.

Definition with_User (s : Store) (rows : list User.row) : Store :=
  {| tbl_Email := tbl_Email s; tbl_User := rows;
     tbl_PersistentLogin := tbl_PersistentLogin s;
     next_PersistentLogin_id := next_PersistentLogin_id s |}.

Definition update_working (f : Store -> Store) : M Orm unit :=
  fun o => (Ok tt, {| working := f (working o); committed := committed o |}).

(** [db.session.commit()]. *)
Definition commit : M Orm unit :=
  fun o => (Ok tt, {| working := working o; committed := working o |}).

(** Python's [s[32:64]]. *)
Definition slice_32_64 (s : string) : string := substring 32 32 s.

Section Session.
Context {hashing : Hash}.

(** The relationship attributes [user] and [email]: the row the foreign
    key names, [None] without one. *)
Definition user_of (s : Store) (p : PersistentLogin.row) : option User.row :=
  find (fun u => User.row_id u =? PersistentLogin.user_id p) (tbl_User s).

Definition email_of (s : Store) (u : User.row) : option Email.row :=
  find (fun e => Email.row_id e =? User.email_id u) (tbl_Email s).

(** [User.identifier]; reading [.address] of a missing email raises. *)
Definition User_identifier (s : Store) (self : User.row) : result string :=
  match email_of s self with
  | Some e => Ok (quick_hash (User.password self ++ Email.address e))
  | None => Raise AttributeError
  end.

(** [session.user.identifier]. *)
Definition session_user_identifier (s : Store) (p : PersistentLogin.row)
    : result string :=
  match user_of s p with
  | Some u => User_identifier s u
  | None => Raise AttributeError
  end.

Definition lift_result {A : Type} (f : Store -> result A) : M Orm A :=
  fun o => (f (working o), o).

(** Assigning [user.password]: [validate_password] stores the hash, the
    ['set'] listener stamps [password_edited] when the assigned text
    differs from the stored value, and [user_update] stamps [updated] when
    the row is written. *)
Definition set_password (now : Z) (password : string) (u : User.row) : User.row :=
  let value := password_hash password in
  {| User.row_id := User.row_id u;
     User.email_id := User.email_id u;
     User.username := User.username u;
     User.password := value;
     User.activated := User.activated u;
     User.permission := User.permission u;
     User.password_edited :=
       if String.eqb password (User.password u) then User.password_edited u else now;
     User.created := User.created u;
     User.updated := now |}.

Definition change_password (now : Z) (user_row_id : Z) (password : string)
    (s : Store) : Store :=
  with_User s
    (map (fun u => if User.row_id u =? user_row_id
                   then set_password now password u else u)
       (tbl_User s)).

(** [PersistentLogin.__init__] followed by the insert: [validate_token]
    stores the hash of the token, the identifier is [quick_hash()] (here
    [seed]) followed by the identifier of the user, and
    [persistent_login_insert] stamps both times. *)
Definition PersistentLogin_init (now : Z) (seed : string) (user : User.row)
    (token : string) : M Orm PersistentLogin.row :=
  uid <- lift_result (fun s => User_identifier s user) ;;
  fun o =>
    let s := working o in
    let p := {| PersistentLogin.row_id := next_PersistentLogin_id s;
                PersistentLogin.user_id := User.row_id user;
                PersistentLogin.identifier := (seed ++ uid)%string;
                PersistentLogin.token := quick_hash token;
                PersistentLogin.created := now;
                PersistentLogin.updated := now |} in
    (Ok p,
     {| working :=
          {| tbl_Email := tbl_Email s; tbl_User := tbl_User s;
             tbl_PersistentLogin := tbl_PersistentLogin s ++ [p];
             next_PersistentLogin_id := next_PersistentLogin_id s + 1 |};
        committed := committed o |}).

(** The session object after [self.token = token]: [validate_token] has
    put the hash of the new token in place; nothing else has changed
    yet. *)
Definition with_token (fresh : string) (p : PersistentLogin.row)
    : PersistentLogin.row :=
  {| PersistentLogin.row_id := PersistentLogin.row_id p;
     PersistentLogin.user_id := PersistentLogin.user_id p;
     PersistentLogin.identifier := PersistentLogin.identifier p;
     PersistentLogin.token := quick_hash fresh;
     PersistentLogin.created := PersistentLogin.created p;
     PersistentLogin.updated := PersistentLogin.updated p |}.

(** The row as the next flush writes it: [persistent_login_update]
    stamps [updated] with the time [now] of that flush. *)
Definition rotated (now : Z) (fresh : string) (p : PersistentLogin.row)
    : PersistentLogin.row :=
  {| PersistentLogin.row_id := PersistentLogin.row_id p;
     PersistentLogin.user_id := PersistentLogin.user_id p;
     PersistentLogin.identifier := PersistentLogin.identifier p;
     PersistentLogin.token := quick_hash fresh;
     PersistentLogin.created := PersistentLogin.created p;
     PersistentLogin.updated := now |}.

(** [regenerate_token]: the new token (from [generate_uuid()], here
    [fresh]) is set on the session and returned as it is. The queries
    that follow see the row flushed; the session object that
    [get_session] hands back has not been stamped at that point. *)
Definition regenerate_token (now : Z) (fresh : string) (self : PersistentLogin.row)
    : M Orm (PersistentLogin.row * string) :=
  update_working (fun s =>
    with_PersistentLogin s
      (map (fun p => if PersistentLogin.row_id p =? PersistentLogin.row_id self
                     then rotated now fresh p else p)
         (tbl_PersistentLogin s))) ;;;
  ret (with_token fresh self, fresh).

(** [all_sessions = PersistentLogin.query.filter(
    PersistentLogin.user.identifier == session.identifier)]. On the class,
    [PersistentLogin.user] is the relationship attribute, which has no
    attribute [identifier]: building the filter raises AttributeError, and
    no query (here the rows it would select) comes back. *)
Definition all_sessions (session : PersistentLogin.row)
    : M Orm (PersistentLogin.row -> bool) :=
  raise AttributeError.

(** [all_sessions.delete()]. *)
Definition delete (selected : PersistentLogin.row -> bool) : M Orm unit :=
  update_working (fun s =>
    with_PersistentLogin s
      (filter (fun p => negb (selected p)) (tbl_PersistentLogin s))).

(** [PersistentLogin.query.filter(PersistentLogin.token==token).first()]. *)
Definition query_by_token (token : string) : M Orm (option PersistentLogin.row) :=
  fun o =>
    (Ok (find (fun p => String.eqb (PersistentLogin.token p) token)
           (tbl_PersistentLogin (working o))), o).

(** [PersistentLogin.get_session]; its [user] argument is never read. *)
Definition get_session (now : Z) (fresh : string) (user : option User.row)
    (token identifier : string) : M Orm (option (PersistentLogin.row * string)) :=
  let token := quick_hash token in
  found <- query_by_token token ;;
  match found with
  | None => ret None
  | Some session =>
      if negb (String.eqb (PersistentLogin.identifier session) identifier) then
        uid <- lift_result (fun s => session_user_identifier s session) ;;
        if String.eqb (slice_32_64 (PersistentLogin.identifier session)) uid then
          selected <- all_sessions session ;;
          delete selected ;;;
          commit ;;;
          ret None
        else ret None
      else
        uid <- lift_result (fun s => session_user_identifier s session) ;;
        if negb (String.eqb (slice_32_64 (PersistentLogin.identifier session)) uid)
        then ret None
        else
          r <- regenerate_token now fresh session ;;
          ret (Some r)
  end.

End Session.

(** *** Vocabulary of the properties *)

(** The session store after [regenerate_token] on [session]. *)
Definition rotate_in {hashing : Hash} (now : Z) (fresh : string)
    (session : PersistentLogin.row) (o : Orm) : Orm :=
  {| working :=
       with_PersistentLogin (working o)
         (map (fun p => if PersistentLogin.row_id p =? PersistentLogin.row_id session
                        then rotated now fresh p else p)
            (tbl_PersistentLogin (working o)));
     committed := committed o |}.

(** The token column is declared [unique=True]. *)
Definition unique_tokens (s : Store) : Prop :=
  NoDup (map PersistentLogin.token (tbl_PersistentLogin s)).

Definition has_token (h : string) (p : PersistentLogin.row) : bool :=
  String.eqb (PersistentLogin.token p) h.

End Models.

(** ** Concrete data for the examples *)
Module Examples.

Import Core.

(** The constants of the specification's scenarios. *)
Definition constants : Constants :=
  {| BAN_TIME_IP := 60; BAN_TIME_ACCOUNT := 3600;
     MAX_LOGIN_ATTEMPTS_IP := 5; MAX_LOGIN_ATTEMPTS_ACCOUNT := 3 |}.

(** A stand-in for the hash functions: the text itself is its own hash
    and a password checks against itself. *)
Definition hash : Hash :=
  {| quick_hash := fun s => s; password_check := String.eqb |}.

Definition attempt (id : Z) (fd : string) (ip at_ ok : Z) : login_attempts.row :=
  {| login_attempts.id := id; login_attempts.field_data := fd;
     login_attempts.ip_id := ip; login_attempts.attempt_time := at_;
     login_attempts.success := ok |}.

Definition alice (ban_until : Z) : accounts.row :=
  {| accounts.id := 1; accounts.email_id := 1; accounts.username := "alice";
     accounts.password := "secret"; accounts.password_changed := 10;
     accounts.register_time := 10; accounts.last_activity := 10;
     accounts.credits := 0; accounts.permission := 1; accounts.activated := 1;
     accounts.ban_until := ban_until; accounts.ban_count := 0 |}.

Definition ip7 : ip_addresses.row :=
  {| ip_addresses.id := 7; ip_addresses.ban_until := 0;
     ip_addresses.ban_count := 2 |}.

Definition world (accs : list accounts.row) (log : list login_attempts.row)
    (time : Z) : World :=
  {| tables := {| tbl_emails := []; tbl_accounts := accs;
                  tbl_ip_addresses := [ip7]; tbl_login_attempts := log;
                  next_email_id := 1; next_attempt_id := 100 |};
     clock := fun _ => time;
     trace := [] |}.

(** Five attempts from IP 7 within the last minute. *)
Definition five_attempts : list login_attempts.row :=
  [attempt 1 "alice" 7 131 0; attempt 2 "alice" 7 132 0;
   attempt 3 "bob" 7 133 0; attempt 4 "bob" 7 134 1;
   attempt 5 "carol" 7 135 0].

(** One success at 100, then failures at 110, 120, 130, and a failure at
    90 before the success. *)
Definition after_success : list login_attempts.row :=
  [attempt 1 "alice" 7 90 0; attempt 2 "alice" 7 100 1;
   attempt 3 "alice" 7 110 0; attempt 4 "alice" 7 120 0;
   attempt 5 "alice" 7 130 0].

(** One earlier failure for "alice" from IP 7. *)
Definition one_failure : list login_attempts.row := [attempt 1 "alice" 7 130 0].

(** A stand-in for [flaskapp.utils.hash] with hashes of 32 characters:
    the first character of the text, then zeros. *)
Definition session_hash : Models.Hash :=
  {| Models.quick_hash := fun s =>
       String (match s with String c _ => c | EmptyString => "0"%char end)
         "0000000000000000000000000000000";
     Models.password_hash := fun s => s |}.

Definition seed : string := "abcdefghijklmnopqrstuvwxyz012345".

Definition carol : Models.User.row :=
  {| Models.User.row_id := 1; Models.User.email_id := 1;
     Models.User.username := Some "carol"%string;
     Models.User.password := "pw"; Models.User.activated := true;
     Models.User.permission := 0; Models.User.password_edited := 10;
     Models.User.created := 10; Models.User.updated := 10 |}.

Definition no_sessions : Models.Orm :=
  let s := {| Models.tbl_Email :=
                [{| Models.Email.row_id := 1; Models.Email.address := "c@example.org";
                    Models.Email.created := 10; Models.Email.updated := 10 |}];
              Models.tbl_User := [carol];
              Models.tbl_PersistentLogin := [];
              Models.next_PersistentLogin_id := 1 |} in
  {| Models.working := s; Models.committed := s |}.

(** A session is issued to carol with the token "t1". *)
Definition issued : Models.Orm :=
  snd (Models.PersistentLogin_init (hashing := session_hash) 20 seed carol "t1"
         no_sessions).

Definition issued_identifier : string :=
  "abcdefghijklmnopqrstuvwxyz012345p0000000000000000000000000000000".

(** The session is validated once; the new token is "u2". *)
Definition validated : Models.Orm :=
  snd (Models.get_session (hashing := session_hash) 30 "u2" None "t1"
         issued_identifier issued).

End Examples.

(** ** core/database.py: registration

    [insert_account] needs two more statements and the AUTO_INCREMENT of
    [accounts]; they extend the connection above. *)
Module Registration.

Import Core.

(** [PERMISSION_REGISTERED] of [core.constants] and [password_hash] of
    [core.hash] are not part of the sources, and neither is the schema:
    the columns that the INSERT leaves to their defaults are parameters
    too. *)
Class Params : Type := {
  PERMISSION_REGISTERED : Z;
  password_hash : string -> string;
  default_credits : Z;
  default_activated : Z;
  default_ban_until : Z;
  default_ban_count : Z
}.

Inductive statement : Type :=
| Base (q : Core.statement)
| SELECT_count_accounts_by_email_id (email_id : Z)
| INSERT_account (email_id : Z) (username password : string) (permission : Z).

Record Database : Type := {
  base : Tables;
  next_account_id : Z
}.

Record Connection : Type := {
  database : Database;
  conn_clock : nat -> Z;
  conn_trace : list statement
}.

Definition conn_now (c : Connection) : Z :=
  conn_clock c (List.length (conn_trace c)).

(** The connection as the commands above see it: the same tables, and a
    clock that starts at the statement the connection is about to run. *)
Definition view (c : Connection) : World :=
  {| tables := base (database c);
     clock := fun n => conn_clock c (List.length (conn_trace c) + n);
     trace := [] |}.

(** A command of [DatabaseCommands] run on the connection. *)
Definition run {A : Type} (cmd : M World A) : M Connection A :=
  fun c =>
    let '(r, w) := cmd (view c) in
    (r, {| database := {| base := tables w;
                          next_account_id := next_account_id (database c) |};
           conn_clock := conn_clock c;
           conn_trace := conn_trace c ++ map Base (trace w) |}).

(** [SELECT count( * ) FROM accounts WHERE email_id = %s]. *)
Definition sql_count_accounts (email_id : Z) : M Connection Z :=
  fun c =>
    (Ok (count (fun r => accounts.email_id r =? email_id)
           (tbl_accounts (base (database c)))),
     {| database := database c;
        conn_clock := conn_clock c;
        conn_trace := conn_trace c ++ [SELECT_count_accounts_by_email_id email_id] |}).

Section Insert.
Context {params : Params}.

(** The row that the INSERT of [insert_account] writes at time [t]. *)
Definition new_account (id t email_id : Z) (username password : string)
    (permission : Z) : accounts.row :=
  {| accounts.id := id;
     accounts.email_id := email_id;
     accounts.username := username;
     accounts.password := password;
     accounts.password_changed := t;
     accounts.register_time := t;
     accounts.last_activity := t;
     accounts.credits := default_credits;
     accounts.permission := permission;
     accounts.activated := default_activated;
     accounts.ban_until := default_ban_until;
     accounts.ban_count := default_ban_count |}.

(** [INSERT INTO accounts (...) VALUES (...)]; the answer is [lastrowid]. *)
Definition sql_insert_account (email_id : Z) (username password : string)
    (permission : Z) : M Connection Z :=
  fun c =>
    let d := database c in
    (Ok (next_account_id d),
     {| database :=
          {| base := with_accounts (base d)
                       (tbl_accounts (base d)
                        ++ [new_account (next_account_id d) (conn_now c) email_id
                              username password permission]);
             next_account_id := next_account_id d + 1 |};
        conn_clock := conn_clock c;
        conn_trace := conn_trace c
                      ++ [INSERT_account email_id username password permission] |}).

(** [insert_account]; [None] stands for the [False] it returns when the
    email already has an account, and [username] defaults to the text
    ['NULL']. *)
Definition insert_account (email password username : string)
    : M Connection (option Z) :=
  email_id <- run (get_email_id email true) ;;
  n <- sql_count_accounts email_id ;;
  if negb (n =? 0) then ret None
  else
    id <- sql_insert_account email_id username (password_hash password)
            PERMISSION_REGISTERED ;;
    ret (Some id).

Definition insert_account_default (email password : string)
    : M Connection (option Z) :=
  insert_account email password "NULL".

End Insert.

End Registration.

(** ** flaskapp/database/models/user.py: [Email.validate_address] *)
Module Addresses.

(** [s.split(sep)] for a separator of one character. *)
Fixpoint split (sep : ascii) (s : string) : list string :=
  match s with
  | EmptyString => [EmptyString]
  | String c s' =>
      if Ascii.eqb c sep then EmptyString :: split sep s'
      else match split sep s' with
           | p :: ps => String c p :: ps
           | [] => [String c EmptyString]
           end
  end.

(** [c in s]. *)
Fixpoint contains (c : ascii) (s : string) : bool :=
  match s with
  | EmptyString => false
  | String x s' => Ascii.eqb x c || contains c s'
  end.

(** [s[0] == c] and [s[-1] == c] on a string that is not empty. *)
Definition first_is (c : ascii) (s : string) : bool :=
  match s with
  | EmptyString => false
  | String x _ => Ascii.eqb x c
  end.

Fixpoint last_is (c : ascii) (s : string) : bool :=
  match s with
  | EmptyString => false
  | String x EmptyString => Ascii.eqb x c
  | String _ s' => last_is c s'
  end.

(** What a call of the validator does. *)
Inductive validation : Type :=
| Returns (address : string)
| Raises_ValueError
| Raises_IndexError.

(** [validate_address]: [address.split('@')[1]] raises IndexError without
    an ['@']; [or] does not look at the ends when the piece has no dot. *)
Definition validate_address (address : string) : validation :=
  match nth_error (split "@" address) 1 with
  | None => Raises_IndexError
  | Some piece =>
      if negb (contains "." piece) then Raises_ValueError
      else if first_is "@" address || last_is "@" address then Raises_ValueError
      else Returns address
  end.

End Addresses.

(** ** Vocabulary of the further properties *)
Module Vocabulary.

Import Core.

(** The WHERE clause of the email lookup. *)
Definition same_address (email : string) (r : emails.row) : bool :=
  String.eqb (emails.email_address r) email.

(** The times in a list that are later than [t]. *)
Definition later_than (t : Z) (times : list Z) : list Z :=
  filter (fun x => x >? t) times.

(** A list of times in descending order. *)
Fixpoint descending (l : list Z) : Prop :=
  match l with
  | [] => True
  | x :: l' => (forall y, In y l' -> y <= x) /\ descending l'
  end.

(** The columns of an account that no login may change. *)
Definition identity_columns (r : accounts.row)
    : Z * Z * string * string * Z * Z * Z * Z * Z * Z :=
  (accounts.id r, accounts.email_id r, accounts.username r, accounts.password r,
   accounts.password_changed r, accounts.register_time r, accounts.last_activity r,
   accounts.credits r, accounts.permission r, accounts.activated r).

End Vocabulary.

(** ** Concrete data for the further properties *)
Module MoreExamples.

Import Core.

(** Four failures for a login name that has no account. *)
Definition flood : list login_attempts.row :=
  [Examples.attempt 1 "nosuchuser" 7 100 0; Examples.attempt 2 "nosuchuser" 7 110 0;
   Examples.attempt 3 "nosuchuser" 7 120 0; Examples.attempt 4 "nosuchuser" 7 130 0].

(** Alice and her email address, stored; the next email id is 2. *)
Definition tables_with_alice : Tables :=
  {| tbl_emails := [{| emails.id := 1; emails.email_address := "alice@example.org";
                       emails.time_added := 10 |}];
     tbl_accounts := [Examples.alice 0];
     tbl_ip_addresses := [Examples.ip7];
     tbl_login_attempts := [];
     next_email_id := 2;
     next_attempt_id := 1 |}.

Definition world_with_alice : World :=
  {| tables := tables_with_alice; clock := fun _ => 140; trace := [] |}.

Definition params : Registration.Params :=
  {| Registration.PERMISSION_REGISTERED := 1;
     Registration.password_hash := fun s => s;
     Registration.default_credits := 0;
     Registration.default_activated := 0;
     Registration.default_ban_until := 0;
     Registration.default_ban_count := 0 |}.

Definition connection : Registration.Connection :=
  {| Registration.database :=
       {| Registration.base := tables_with_alice; Registration.next_account_id := 2 |};
     Registration.conn_clock := fun _ => 140;
     Registration.conn_trace := [] |}.

(** Carol and Dave; a session is issued to Carol with the token "t1". *)
Definition dave : Models.User.row :=
  {| Models.User.row_id := 2; Models.User.email_id := 2;
     Models.User.username := Some "dave"%string;
     Models.User.password := "dpw"; Models.User.activated := true;
     Models.User.permission := 0; Models.User.password_edited := 10;
     Models.User.created := 10; Models.User.updated := 10 |}.

Definition two_users : Models.Orm :=
  let s := {| Models.tbl_Email :=
                [{| Models.Email.row_id := 1; Models.Email.address := "c@example.org";
                    Models.Email.created := 10; Models.Email.updated := 10 |};
                 {| Models.Email.row_id := 2; Models.Email.address := "d@example.org";
                    Models.Email.created := 10; Models.Email.updated := 10 |}];
              Models.tbl_User := [Examples.carol; dave];
              Models.tbl_PersistentLogin := [];
              Models.next_PersistentLogin_id := 1 |} in
  {| Models.working := s; Models.committed := s |}.

Definition two_users_issued : Models.Orm :=
  snd (Models.PersistentLogin_init (hashing := Examples.session_hash) 20
         Examples.seed Examples.carol "t1" two_users).

(** The session row that [Examples.issued] holds. *)
Definition issued_session : Models.PersistentLogin.row :=
  {| Models.PersistentLogin.row_id := 1; Models.PersistentLogin.user_id := 1;
     Models.PersistentLogin.identifier := Examples.issued_identifier;
     Models.PersistentLogin.token := "t0000000000000000000000000000000";
     Models.PersistentLogin.created := 20; Models.PersistentLogin.updated := 20 |}.

End MoreExamples.

(** ** Properties of core/database.py *)
Module CoreProofs.

Import Core.

Lemma sql_eq (q : statement) (w : World) :
  sql q w = (Ok (answered q w), after q w).
Proof.
  unfold sql, answered, after. destruct (exec q (now w) (tables w)); reflexivity.
Qed.

Lemma bind_sql {B : Type} (q : statement) (k : answer q -> M World B) (w : World) :
  bind (sql q) k w = k (answered q w) (after q w).
Proof. unfold bind. rewrite sql_eq. reflexivity. Qed.

Lemma bind_bind {S A B C : Type} (c : M S A) (k1 : A -> M S B) (k2 : B -> M S C)
    (s : S) :
  bind (bind c k1) k2 s = bind c (fun a => bind (k1 a) k2) s.
Proof. unfold bind. destruct (c s) as [[a|e] s']; reflexivity. Qed.

Lemma bind_ret {S A B : Type} (a : A) (k : A -> M S B) (s : S) :
  bind (ret a) k s = k a s.
Proof. reflexivity. Qed.

Lemma find_filter {A : Type} (p : A -> bool) (l : list A) :
  hd_error (filter p l) = find p l.
Proof.
  induction l as [|x l IH]; simpl; [reflexivity|].
  destruct (p x); simpl; auto.
Qed.

Lemma most_recent_ge (times : list Z) (t : Z) :
  In t times -> t <= most_recent times.
Proof.
  induction times as [|x ts IH]; [contradiction|].
  intros [->|Hin].
  - simpl. destruct ts; lia.
  - specialize (IH Hin). simpl. destruct ts; [contradiction|].
    simpl in IH |- *. lia.
Qed.

Lemma insert_desc_hd (x d : Z) (l : list Z) :
  hd d (insert_desc x l) = match l with [] => x | y :: _ => Z.max x y end.
Proof.
  destruct l as [|y l]; [reflexivity|]. simpl.
  destruct (y <=? x) eqn:E; simpl; lia.
Qed.

Lemma order_by_desc_nil (l : list Z) : order_by_desc l = [] -> l = [].
Proof.
  destruct l as [|x l]; [reflexivity|]. simpl.
  destruct (order_by_desc l) as [|y l']; simpl; [discriminate|].
  destruct (y <=? x); discriminate.
Qed.

(** [ORDER BY attempt_time DESC LIMIT 1] fetches the greatest time. *)
Lemma order_by_desc_hd (l : list Z) :
  hd 0 (firstn 1 (order_by_desc l)) = most_recent l.
Proof.
  assert (Hhd : forall l', hd 0 (firstn 1 l') = hd 0 l') by (intros [|? ?]; reflexivity).
  rewrite Hhd. clear Hhd.
  induction l as [|x l IH]; [reflexivity|].
  cbn [order_by_desc]. rewrite insert_desc_hd.
  destruct l as [|y l]; [reflexivity|].
  destruct (order_by_desc (y :: l)) as [|z l'] eqn:E.
  - apply order_by_desc_nil in E. discriminate.
  - cbn [hd] in IH. rewrite IH. reflexivity.
Qed.

Lemma filter_filter_implied {A : Type} (f g : A -> bool) (l : list A) :
  (forall x, f x = true -> g x = true) ->
  filter f (filter g l) = filter f l.
Proof.
  intros Himp. induction l as [|x l IH]; [reflexivity|]. simpl.
  destruct (g x) eqn:Eg; simpl.
  - rewrite IH. reflexivity.
  - destruct (f x) eqn:Ef; [|exact IH].
    rewrite (Himp x Ef) in Eg. discriminate.
Qed.

Ltac run_sql := repeat (rewrite bind_sql; cbn [answered after exec fst snd]).

Section Throttle.
Context {constants : Constants} {hashing : Hash}.

(** [index0] of a fetched column under [try ... except IndexError]. *)
Lemma try_index0 {A : Type} (q : statement) (proj : answer q -> list A)
    (d : A) (w : World) :
  try_except_IndexError (rows <- sql q ;; index0 (proj rows)) (ret d) w
  = (Ok (hd d (proj (answered q w))), after q w).
Proof.
  unfold try_except_IndexError. rewrite bind_sql.
  destruct (proj (answered q w)); reflexivity.
Qed.

Lemma ban_account_value (account_id : option Z) (length : Z) (w : World) :
  fst (ban_account account_id length w) = Ok length.
Proof.
  unfold ban_account. destruct (truthy account_id); [|reflexivity].
  rewrite bind_sql. reflexivity.
Qed.

(** C1: the IP check returns MAX_LOGIN_ATTEMPTS_IP minus the number of
    attempts of the IP with success >= 0 in the last BAN_TIME_IP seconds;
    exactly when that value is <= 0 it runs the ban statement, which sets
    ban_until to the time of that statement plus BAN_TIME_IP and adds 1 to
    ban_count on the row of the IP, and it returns the exhausted value. *)
Theorem failed_logins_ip_spec (ip : Z) (w : World) :
  let n := count (fun r => (login_attempts.success r >=? 0)
                           && (login_attempts.attempt_time r >? now w - BAN_TIME_IP)
                           && (login_attempts.ip_id r =? ip))
             (tbl_login_attempts (tables w)) in
  let remaining := MAX_LOGIN_ATTEMPTS_IP - n in
  let counted := SELECT_count_ip_attempts BAN_TIME_IP ip in
  let ban_time := now (after counted w) in
  let w' := snd (failed_logins_ip ip w) in
  fst (failed_logins_ip ip w) = Ok remaining
  /\ trace w' = trace w ++ counted
                  :: (if remaining <=? 0 then [UPDATE_ban_ip BAN_TIME_IP ip] else [])
  /\ tbl_ip_addresses (tables w')
     = (if remaining <=? 0
        then map (fun r => if ip_addresses.id r =? ip
                           then {| ip_addresses.id := ip_addresses.id r;
                                   ip_addresses.ban_until := ban_time + BAN_TIME_IP;
                                   ip_addresses.ban_count := ip_addresses.ban_count r + 1 |}
                           else r)
               (tbl_ip_addresses (tables w))
        else tbl_ip_addresses (tables w))
  /\ tbl_login_attempts (tables w') = tbl_login_attempts (tables w)
  /\ tbl_accounts (tables w') = tbl_accounts (tables w).
Proof.
  cbv zeta. unfold failed_logins_ip. run_sql.
  change (count (where_ip_attempts (now w) BAN_TIME_IP ip)
            (tbl_login_attempts (tables w)))
    with (count (fun r => (login_attempts.success r >=? 0)
                          && (login_attempts.attempt_time r >? now w - BAN_TIME_IP)
                          && (login_attempts.ip_id r =? ip))
            (tbl_login_attempts (tables w))).
  set (n := count _ _).
  destruct (MAX_LOGIN_ATTEMPTS_IP - n <=? 0) eqn:E.
  - unfold ban_ip. run_sql. cbn.
    repeat split. rewrite <- app_assoc. reflexivity.
  - cbn. repeat split.
Qed.


Lemma check_banned_sound (account_id : option Z) (w : World) :
  exists b w',
    check_banned account_id w = (Ok b, w')
    /\ tables w' = tables w /\ clock w' = clock w.
Proof.
  unfold check_banned. destruct (truthy account_id) as [a|].
  - rewrite (try_index0 (SELECT_ban_remaining a) (fun rows => rows) 0 w).
    eexists _, _. repeat split.
  - exists 0, w. repeat split.
Qed.

Lemma failed_logins_ip_run (ip : Z) (w : World) :
  let q := SELECT_count_ip_attempts BAN_TIME_IP ip in
  let remaining :=
    MAX_LOGIN_ATTEMPTS_IP
    - count (where_ip_attempts (now w) BAN_TIME_IP ip) (tbl_login_attempts (tables w)) in
  failed_logins_ip ip w
  = (Ok remaining,
     if remaining <=? 0 then after (UPDATE_ban_ip BAN_TIME_IP ip) (after q w)
     else after q w).
Proof.
  cbv zeta. unfold failed_logins_ip. rewrite bind_sql. cbn [answered exec fst].
  destruct (_ <=? 0); [|reflexivity].
  unfold ban_ip. rewrite bind_bind, bind_sql, bind_ret. reflexivity.
Qed.

(** The account check once the ban window [b] has been read. *)
Lemma failed_logins_account_run (account_id : option Z) (field_data : string)
    (w w1 : World) (b : Z) :
  check_banned account_id w = (Ok b, w1) ->
  tables w1 = tables w ->
  let h := quick_hash field_data in
  let log := tbl_login_attempts (tables w) in
  let w2 := after (SELECT_last_login h) w1 in
  let last := most_recent (map login_attempts.attempt_time
                             (filter (where_last_login h) log)) in
  let q := SELECT_count_account_attempts last BAN_TIME_ACCOUNT h in
  let remaining :=
    MAX_LOGIN_ATTEMPTS_ACCOUNT
    - count (where_account_attempts (now w2) last BAN_TIME_ACCOUNT h) log in
  let w3 := after q w2 in
  failed_logins_account account_id field_data w
  = if negb (b =? 0) then (Ok (0, b), w1)
    else if remaining <=? 0 then
      match truthy account_id with
      | Some a =>
          (Ok (remaining, BAN_TIME_ACCOUNT),
           after (UPDATE_ban_account BAN_TIME_ACCOUNT a) w3)
      | None =>
          (Ok (remaining,
               BAN_TIME_ACCOUNT
               - hd 0 (answered (SELECT_ban_offset (- remaining) h) w3)),
           after (SELECT_ban_offset (- remaining) h) w3)
      end
    else (Ok (remaining, b), w3).
Proof.
  intros Hcb Ht h log w2 last q remaining w3.
  unfold failed_logins_account. fold h. unfold bind at 1. rewrite Hcb.
  destruct (negb (b =? 0)); [reflexivity|].
  unfold bind at 1.
  rewrite (try_index0 (SELECT_last_login h) (fun rows => rows) 0 w1).
  cbn [answered exec fst]. rewrite order_by_desc_hd, Ht. fold log last w2.
  rewrite bind_sql. cbn [answered exec fst].
  change (tables w2) with (tables w1). rewrite Ht. fold log q remaining w3.
  destruct (remaining <=? 0); [|reflexivity].
  unfold ban_account. destruct (truthy account_id) as [a|].
  - rewrite bind_bind, bind_sql, !bind_ret. reflexivity.
  - rewrite bind_ret. unfold bind at 1.
    rewrite (try_index0 (SELECT_ban_offset (- remaining) h) (fun rows => rows) 0 w3).
    reflexivity.
Qed.

Lemma failed_logins_account_ok (account_id : option Z) (field_data : string)
    (w : World) :
  exists remaining ban w',
    failed_logins_account account_id field_data w = (Ok (remaining, ban), w').
Proof.
  destruct (check_banned_sound account_id w) as (b & w1 & Hcb & Ht & _).
  rewrite (failed_logins_account_run account_id field_data w w1 b Hcb Ht).
  cbv zeta. destruct (negb (b =? 0)); [eexists _, _, _; reflexivity|].
  destruct (_ <=? 0); [|eexists _, _, _; reflexivity].
  destruct (truthy account_id); eexists _, _, _; reflexivity.
Qed.

(** [login] with an IP and a login field, in terms of the two checks. *)
Lemma login_run (account_id : option Z) (password : string) (ip : Z)
    (form_data : string) (w w2 w3 : World) (r_ip r_acc ban : Z) :
  let w0 := after (SELECT_login_data account_id) w in
  let cc := check_credentials account_id password
              (answered (SELECT_login_data account_id) w) in
  let valid := fst (fst cc) in
  let w1 := after (INSERT_login_attempt (quick_hash form_data) ip valid) w0 in
  failed_logins_ip ip w1 = (Ok r_ip, w2) ->
  failed_logins_account account_id form_data w2 = (Ok (r_acc, ban), w3) ->
  login account_id password (Some ip) (Some form_data) w
  = (Ok {| account := snd (fst cc);
           warnings :=
             (if r_ip <=? 10 then [ip_warning r_ip] else [])
             ++ (if ban >? 0 then []
                 else if r_acc <=? 10 then [account_warning r_acc] else []);
           errors := snd cc ++ (if ban >? 0 then [ban_error ban] else []);
           status := if ban >? 0 then -1 else valid |},
     w3).
Proof.
  intros w0 cc valid w1 Hip Hacc.
  unfold login. rewrite bind_sql. fold cc.
  destruct cc as [[v a] e] eqn:Ecc. cbn [fst snd] in *. cbv beta iota.
  unfold login_attempt_record.
  rewrite (bind_sql (INSERT_login_attempt (quick_hash form_data) ip v)).
  fold w0. subst valid. fold w1.
  unfold bind at 1. rewrite Hip.
  unfold bind at 1. rewrite Hacc.
  destruct (ban >? 0).
  - rewrite app_nil_r. reflexivity.
  - destruct (r_acc <=? 10); rewrite !app_nil_r; reflexivity.
Qed.

(** C5: in a [login] call with an IP and a login field, with [r_ip] the
    result of the IP check and [(r_acc, ban)] the result of the account
    check that follows it: when ban > 0 the status is -1 and the error
    naming the ban seconds is appended; otherwise the status is the
    credential outcome and, when r_acc <= 10, the account warning with
    r_acc is appended; and when r_ip <= 10 the IP warning with r_ip comes
    first, in the singular exactly when the number is 1. *)
Theorem login_warnings_and_errors (account_id : option Z) (password : string)
    (ip : Z) (form_data : string) (w : World) :
  let cc := check_credentials account_id password
              (answered (SELECT_login_data account_id) w) in
  exists r_ip w2 r_acc ban w3 res,
    failed_logins_ip ip (recorded account_id password ip form_data w) = (Ok r_ip, w2)
    /\ failed_logins_account account_id form_data w2 = (Ok (r_acc, ban), w3)
    /\ login account_id password (Some ip) (Some form_data) w = (Ok res, w3)
    /\ status res = (if ban >? 0 then -1 else credential_outcome account_id password w)
    /\ errors res
       = snd cc
         ++ (if ban >? 0
             then [("Your account is disabled for another " ++ str ban
                    ++ " seconds.")%string]
             else [])
    /\ warnings res
       = (if r_ip <=? 10
          then [("You have " ++ str r_ip ++ " more login attempt"
                 ++ (if (r_ip =? 1)%Z then EmptyString else "s")
                 ++ " until your IP is temporarily banned.")%string]
          else [])
         ++ (if ban >? 0 then []
             else if r_acc <=? 10
                  then [("You have " ++ str r_acc ++ " more login attempt"
                         ++ (if (r_acc =? 1)%Z then EmptyString else "s")
                         ++ " before this account is temporarily disabled.")%string]
                  else []).
Proof.
  intros cc.
  set (w1 := recorded account_id password ip form_data w).
  pose proof (failed_logins_ip_run ip w1) as Hip. cbv zeta in Hip.
  destruct (failed_logins_account_ok account_id form_data
              (snd (failed_logins_ip ip w1))) as (r_acc & ban & w3 & Hacc).
  rewrite Hip in Hacc. cbn [snd] in Hacc.
  eexists _, _, r_acc, ban, w3, _.
  split; [exact Hip|]. split; [exact Hacc|].
  split; [exact (login_run account_id password ip form_data w _ w3 _ r_acc ban Hip Hacc)|].
  cbn [status errors warnings]. repeat split.
Qed.

Lemma count_snoc {A : Type} (f : A -> bool) (l : list A) (x : A) :
  count f (l ++ [x]) = count f l + (if f x then 1 else 0).
Proof.
  unfold count. rewrite filter_app, length_app. simpl.
  destruct (f x); simpl; lia.
Qed.

Lemma credential_outcome_01 (account_id : option Z) (password : string) (w : World) :
  credential_outcome account_id password w = 0
  \/ credential_outcome account_id password w = 1.
Proof.
  unfold credential_outcome, check_credentials.
  destruct (answered (SELECT_login_data account_id) w) as [|r rows]; [left; reflexivity|].
  destruct (password_check password (accounts.password r)); [right|left]; reflexivity.
Qed.

Lemma failed_logins_account_trace (account_id : option Z) (field_data : string)
    (w : World) :
  exists rest,
    trace (snd (failed_logins_account account_id field_data w)) = trace w ++ rest.
Proof.
  destruct (check_banned_sound account_id w) as (b & w1 & Hcb & Ht & _).
  rewrite (failed_logins_account_run account_id field_data w w1 b Hcb Ht).
  assert (H1 : exists rest1, trace w1 = trace w ++ rest1).
  { revert Hcb. unfold check_banned. destruct (truthy account_id) as [a|].
    - rewrite (try_index0 (SELECT_ban_remaining a) (fun rows => rows) 0 w).
      intros [= _ <-]. eexists. reflexivity.
    - intros [= _ <-]. exists []. rewrite app_nil_r. reflexivity. }
  destruct H1 as (rest1 & H1).
  cbv zeta. destruct (negb (b =? 0)); [exists rest1; exact H1|].
  destruct (_ <=? 0); [destruct (truthy account_id)|];
    cbn [snd after trace]; rewrite H1, <- ?app_assoc; eexists; reflexivity.
Qed.

(** The current attempt is a success for the last-login statement
    exactly when the credential check passed, so a passed check puts the
    last success at or after the attempt itself. *)
Lemma current_attempt_account (account_id : option Z) (password : string)
    (ip : Z) (form_data : string) (w : World) (t window : Z) :
  let row := current_attempt account_id password ip form_data w in
  let last := most_recent
                (map login_attempts.attempt_time
                   (filter (where_last_login (quick_hash form_data))
                      (tbl_login_attempts (tables w) ++ [row]))) in
  where_account_attempts t last window (quick_hash form_data) row
  = (credential_outcome account_id password w =? 0)
    && (login_attempts.attempt_time row >? Z.max last (t - window)).
Proof.
  intros row last. unfold where_account_attempts.
  replace (String.eqb (login_attempts.field_data row) (quick_hash form_data))
    with true by (symmetry; apply String.eqb_refl).
  rewrite andb_true_r.
  destruct (credential_outcome_01 account_id password w) as [E|E]; rewrite E.
  - reflexivity.
  - cbn [Z.eqb andb].
    assert (Hle : login_attempts.attempt_time row <= last).
    { apply most_recent_ge. apply in_map. apply filter_In. split.
      - apply in_or_app. right. left. reflexivity.
      - unfold where_last_login. cbn [row current_attempt login_attempts.success
                                        login_attempts.field_data].
        rewrite E, String.eqb_refl. reflexivity. }
    destruct (login_attempts.attempt_time row >? Z.max last (t - window)) eqn:Et;
      [|reflexivity].
    apply Z.gtb_lt in Et. lia.
Qed.

(** C6, as the code has it: [login] appends the current attempt, with
    success equal to the outcome of the credential check, before it runs
    the IP check and then the account check, and both run on the log that
    holds it. The attempt adds 1 to the count of the IP check while it is
    inside the window of BAN_TIME_IP seconds. It adds 1 to the count of
    the account check only when the credential check failed (and then
    while its time is after the last success and inside the window of
    BAN_TIME_ACCOUNT seconds): a successful attempt is itself the last
    success that the count starts after. *)
Theorem login_records_before_checks (account_id : option Z) (password : string)
    (ip : Z) (form_data : string) (w : World) :
  let h := quick_hash form_data in
  let valid := credential_outcome account_id password w in
  let row := current_attempt account_id password ip form_data w in
  let w1 := recorded account_id password ip form_data w in
  let log := tbl_login_attempts (tables w) in
  let last := most_recent (map login_attempts.attempt_time
                             (filter (where_last_login h) (log ++ [row]))) in
  exists r_ip w2 b w2' r_acc ban w3 rest,
    tbl_login_attempts (tables w1) = log ++ [row]
    /\ login_attempts.success row = valid
    /\ failed_logins_ip ip w1 = (Ok r_ip, w2)
    /\ tbl_login_attempts (tables w2) = log ++ [row]
    /\ check_banned account_id w2 = (Ok b, w2')
    /\ failed_logins_account account_id form_data w2 = (Ok (r_acc, ban), w3)
    /\ snd (login account_id password (Some ip) (Some form_data) w) = w3
    /\ trace w3
       = trace w ++ SELECT_login_data account_id
                 :: INSERT_login_attempt h ip valid
                 :: SELECT_count_ip_attempts BAN_TIME_IP ip :: rest
    /\ r_ip
       = MAX_LOGIN_ATTEMPTS_IP
         - (count (where_ip_attempts (now w1) BAN_TIME_IP ip) log
            + (if login_attempts.attempt_time row >? now w1 - BAN_TIME_IP
               then 1 else 0))
    /\ r_acc
       = (let t := now (after (SELECT_last_login h) w2') in
          if negb (b =? 0) then 0
          else MAX_LOGIN_ATTEMPTS_ACCOUNT
               - (count (where_account_attempts t last BAN_TIME_ACCOUNT h) log
                  + (if (valid =? 0)
                        && (login_attempts.attempt_time row
                              >? Z.max last (t - BAN_TIME_ACCOUNT))
                     then 1 else 0))).
Proof.
  intros h valid row w1 log last.
  assert (Hlog1 : tbl_login_attempts (tables w1) = log ++ [row]) by reflexivity.
  pose proof (failed_logins_ip_run ip w1) as Hip. cbv zeta in Hip.
  set (r_ip := MAX_LOGIN_ATTEMPTS_IP
               - count (where_ip_attempts (now w1) BAN_TIME_IP ip)
                   (tbl_login_attempts (tables w1))) in Hip.
  set (q := SELECT_count_ip_attempts BAN_TIME_IP ip) in Hip.
  set (w2 := if r_ip <=? 0 then after (UPDATE_ban_ip BAN_TIME_IP ip) (after q w1)
             else after q w1) in Hip.
  assert (Hlog2 : tbl_login_attempts (tables w2) = log ++ [row])
    by (subst w2; destruct (r_ip <=? 0); reflexivity).
  assert (Htr2 : exists rest2, trace w2 = trace w1 ++ q :: rest2).
  { subst w2. destruct (r_ip <=? 0).
    - exists [UPDATE_ban_ip BAN_TIME_IP ip]. cbn [after trace].
      rewrite <- app_assoc. reflexivity.
    - exists []. reflexivity. }
  destruct Htr2 as (rest2 & Htr2).
  destruct (check_banned_sound account_id w2) as (b & w2' & Hcb & Ht & _).
  pose proof (failed_logins_account_run account_id form_data w2 w2' b Hcb Ht) as Hrun.
  cbv zeta in Hrun. fold h in Hrun. rewrite Hlog2 in Hrun. fold last in Hrun.
  destruct (failed_logins_account_ok account_id form_data w2)
    as (r_acc & ban & w3 & Hacc).
  destruct (failed_logins_account_trace account_id form_data w2) as (rest3 & Htr3).
  rewrite Hacc in Htr3. cbn [snd] in Htr3.
  exists r_ip, w2, b, w2', r_acc, ban, w3, (rest2 ++ rest3).
  split; [exact Hlog1|]. split; [reflexivity|]. split; [exact Hip|].
  split; [exact Hlog2|]. split; [exact Hcb|]. split; [exact Hacc|].
  split.
  { rewrite (login_run account_id password ip form_data w w2 w3 r_ip r_acc ban Hip Hacc).
    reflexivity. }
  split.
  { rewrite Htr3, Htr2. unfold w1, recorded. cbn [after trace].
    rewrite <- !app_assoc. reflexivity. }
  split.
  { subst r_ip. rewrite Hlog1, count_snoc. f_equal. f_equal.
    unfold where_ip_attempts.
    replace (login_attempts.ip_id row =? ip) with true
      by (symmetry; apply Z.eqb_refl).
    rewrite andb_true_r.
    replace (login_attempts.success row >=? 0) with true; [reflexivity|].
    change (login_attempts.success row) with (credential_outcome account_id password w).
    symmetry. apply Z.geb_le.
    destruct (credential_outcome_01 account_id password w) as [E|E]; rewrite E; lia. }
  cbv zeta. rewrite Hacc in Hrun.
  destruct (negb (b =? 0)); [congruence|].
  rewrite count_snoc in Hrun.
  rewrite (current_attempt_account account_id password ip form_data w) in Hrun.
  fold row valid last in Hrun.
  destruct (_ <=? 0) in Hrun; [destruct (truthy account_id)|];
    injection Hrun as Hr _ _; exact Hr.
Qed.

(** C10, as the code has it: neither check clamps its result. The IP
    check returns MAX_LOGIN_ATTEMPTS_IP minus its count, negative exactly
    when the count exceeds the maximum, and [login] puts that number as it
    is into the IP warning whenever it is <= 10. The account check of an
    account that is not banned returns MAX_LOGIN_ATTEMPTS_ACCOUNT minus
    its count, negative exactly when the count exceeds the maximum; the
    account warning carries that number as it is, but [login] emits it
    only when the ban seconds are not positive, and for an existing
    account an exhausted count has just set them to BAN_TIME_ACCOUNT. *)
Theorem remaining_attempts_not_clamped (account_id : option Z) (password : string)
    (ip : Z) (form_data : string) (w : World) :
  let h := quick_hash form_data in
  let w1 := recorded account_id password ip form_data w in
  let log1 := tbl_login_attempts (tables w1) in
  let n_ip := count (where_ip_attempts (now w1) BAN_TIME_IP ip) log1 in
  let r_ip := MAX_LOGIN_ATTEMPTS_IP - n_ip in
  let last := most_recent (map login_attempts.attempt_time
                             (filter (where_last_login h) log1)) in
  exists w2 b w2' r_acc ban w3 res,
    failed_logins_ip ip w1 = (Ok r_ip, w2)
    /\ (r_ip <? 0) = (MAX_LOGIN_ATTEMPTS_IP <? n_ip)
    /\ check_banned account_id w2 = (Ok b, w2')
    /\ failed_logins_account account_id form_data w2 = (Ok (r_acc, ban), w3)
    /\ (let n_acc :=
          count (where_account_attempts (now (after (SELECT_last_login h) w2'))
                   last BAN_TIME_ACCOUNT h) log1 in
        if negb (b =? 0) then r_acc = 0 /\ ban = b
        else r_acc = MAX_LOGIN_ATTEMPTS_ACCOUNT - n_acc
             /\ (r_acc <? 0) = (MAX_LOGIN_ATTEMPTS_ACCOUNT <? n_acc)
             /\ match truthy account_id with
                | Some _ => ban = (if r_acc <=? 0 then BAN_TIME_ACCOUNT else 0)
                | None => True
                end)
    /\ login account_id password (Some ip) (Some form_data) w = (Ok res, w3)
    /\ warnings res
       = (if r_ip <=? 10
          then [("You have " ++ str r_ip ++ " more login attempt"
                 ++ (if (r_ip =? 1)%Z then EmptyString else "s")
                 ++ " until your IP is temporarily banned.")%string]
          else [])
         ++ (if ban >? 0 then []
             else if r_acc <=? 10
                  then [("You have " ++ str r_acc ++ " more login attempt"
                         ++ (if (r_acc =? 1)%Z then EmptyString else "s")
                         ++ " before this account is temporarily disabled.")%string]
                  else []).
Proof.
  intros h w1 log1 n_ip r_ip last.
  pose proof (failed_logins_ip_run ip w1) as Hip. cbv zeta in Hip.
  fold log1 n_ip r_ip in Hip.
  set (w2 := if r_ip <=? 0 then _ else _) in Hip.
  assert (Hlog2 : tbl_login_attempts (tables w2) = log1)
    by (subst w2; destruct (r_ip <=? 0); reflexivity).
  destruct (check_banned_sound account_id w2) as (b & w2' & Hcb & Ht & _).
  pose proof (failed_logins_account_run account_id form_data w2 w2' b Hcb Ht) as Hrun.
  cbv zeta in Hrun. fold h in Hrun. rewrite Hlog2 in Hrun. fold last in Hrun.
  destruct (failed_logins_account_ok account_id form_data w2)
    as (r_acc & ban & w3 & Hacc).
  exists w2, b, w2', r_acc, ban, w3.
  eexists.
  split; [exact Hip|].
  split; [subst r_ip; destruct (_ <? 0) eqn:E1, (_ <? n_ip) eqn:E2; try reflexivity;
          rewrite ?Z.ltb_lt, ?Z.ltb_ge in E1, E2; lia|].
  split; [exact Hcb|]. split; [exact Hacc|].
  split.
  { cbv zeta. rewrite Hacc in Hrun.
    destruct (negb (b =? 0)) eqn:Eb.
    - injection Hrun as Hr Hb _. split; assumption.
    - set (n_acc := count (where_account_attempts _ last BAN_TIME_ACCOUNT h) log1) in *.
      assert (Hneg : forall r, r = MAX_LOGIN_ATTEMPTS_ACCOUNT - n_acc ->
                               (r <? 0) = (MAX_LOGIN_ATTEMPTS_ACCOUNT <? n_acc)).
      { intros r ->. destruct (_ <? 0) eqn:E1, (_ <? n_acc) eqn:E2; try reflexivity;
          rewrite ?Z.ltb_lt, ?Z.ltb_ge in E1, E2; lia. }
      destruct (MAX_LOGIN_ATTEMPTS_ACCOUNT - n_acc <=? 0) eqn:Er.
      + destruct (truthy account_id).
        * injection Hrun as Hr Hb _. subst r_acc. rewrite Er.
          repeat split; auto.
        * injection Hrun as Hr _ _. subst r_acc. repeat split; auto.
      + injection Hrun as Hr Hb _. subst r_acc. rewrite Er.
        apply negb_false_iff, Z.eqb_eq in Eb. subst b.
        destruct (truthy account_id); repeat split; auto. }
  split;
    [exact (login_run account_id password ip form_data w w2 w3 r_ip r_acc ban Hip Hacc)|].
  reflexivity.
Qed.

(** Below the last success nothing is a success, so on a well-formed
    log the rows the count statement selects have success < 1. *)
Lemma where_account_attempts_failed (log : list login_attempts.row)
    (t window : Z) (h : string) (r : login_attempts.row) :
  well_formed_log log ->
  In r log ->
  let last := most_recent (map login_attempts.attempt_time
                             (filter (where_last_login h) log)) in
  where_account_attempts t last window h r
  = (login_attempts.success r <? 1)
    && String.eqb (login_attempts.field_data r) h
    && (login_attempts.attempt_time r >? Z.max last (t - window)).
Proof.
  intros Hwf Hin last. unfold where_account_attempts.
  destruct (String.eqb (login_attempts.field_data r) h) eqn:Eh;
    [|rewrite !andb_false_r; reflexivity].
  rewrite andb_true_r.
  destruct (login_attempts.attempt_time r >? Z.max last (t - window)) eqn:Et;
    [|rewrite andb_false_r; reflexivity].
  rewrite !andb_true_r. symmetry. apply Z.ltb_lt.
  destruct (Z.eq_dec (login_attempts.success r) 1) as [E1|E1].
  - assert (Hle : login_attempts.attempt_time r <= last).
    { apply most_recent_ge. apply in_map. apply filter_In. split; [exact Hin|].
      unfold where_last_login. rewrite E1, Eh. reflexivity. }
    lia.
  - specialize (Hwf r Hin). lia.
Qed.

(** C3: for an account that is not banned the account check returns
    MAX_LOGIN_ATTEMPTS_ACCOUNT minus the number of attempts with
    success < 1 for the hash of the login field whose time is strictly
    after max(time of the most recent success for that hash, now -
    BAN_TIME_ACCOUNT); dropping every attempt strictly before the last
    success from the log leaves that number as it is. *)
Theorem failed_logins_account_counts (account_id : option Z)
    (field_data : string) (w : World) :
  let h := quick_hash field_data in
  let log := tbl_login_attempts (tables w) in
  let last_success :=
    most_recent (map login_attempts.attempt_time
                   (filter (fun r => (login_attempts.success r =? 1)
                                     && String.eqb (login_attempts.field_data r) h)
                      log)) in
  let count_time :=
    now (after (SELECT_last_login h) (snd (check_banned account_id w))) in
  let failed r :=
    (login_attempts.success r <? 1)
    && String.eqb (login_attempts.field_data r) h
    && (login_attempts.attempt_time r
          >? Z.max last_success (count_time - BAN_TIME_ACCOUNT)) in
  fst (check_banned account_id w) = Ok 0 ->
  well_formed_log log ->
  (exists ban w',
     failed_logins_account account_id field_data w
     = (Ok (MAX_LOGIN_ATTEMPTS_ACCOUNT - count failed log, ban), w'))
  /\ count failed log
     = count failed
         (filter (fun r => last_success <=? login_attempts.attempt_time r) log).
Proof.
  intros h log last_success count_time failed Hban Hwf.
  assert (Hcount : count (where_account_attempts count_time last_success
                            BAN_TIME_ACCOUNT h) log
                   = count failed log).
  { unfold count. f_equal. f_equal. apply filter_ext_in. intros r Hin.
    apply (where_account_attempts_failed log count_time BAN_TIME_ACCOUNT h r Hwf Hin). }
  split.
  - subst count_time.
    destruct (check_banned_sound account_id w) as (b & w1 & Hcb & Ht & Hc).
    rewrite Hcb in Hban, Hcount. cbn [fst snd] in Hban, Hcount.
    injection Hban as ->.
    unfold failed_logins_account. fold h. unfold bind at 1. rewrite Hcb.
    cbn [Z.eqb negb].
    unfold bind at 1.
    rewrite (try_index0 (SELECT_last_login h) (fun rows => rows) 0 w1).
    cbn [answered exec fst]. rewrite order_by_desc_hd. rewrite Ht.
    fold log. change (where_last_login h) with
      (fun r => (login_attempts.success r =? 1)
                && String.eqb (login_attempts.field_data r) h).
    fold last_success.
    rewrite bind_sql. cbn [answered exec fst].
    change (tables (after (SELECT_last_login h) w1)) with (tables w1).
    rewrite Ht. fold log. rewrite Hcount.
    set (remaining := MAX_LOGIN_ATTEMPTS_ACCOUNT - count failed log).
    destruct (remaining <=? 0); [|eexists _, _; reflexivity].
    unfold ban_account. destruct (truthy account_id) as [a|].
    + run_sql. eexists _, _; reflexivity.
    + unfold bind at 1. cbn [ret]. unfold bind at 1.
      match goal with
      | |- context [try_except_IndexError ?c ?d ?w0] =>
          rewrite (try_index0 (SELECT_ban_offset (- remaining) h) (fun rows => rows) 0 w0)
      end.
      eexists _, _; reflexivity.
  - unfold count. f_equal. f_equal.
    symmetry. apply filter_filter_implied. intros r Hr.
    unfold failed in Hr. apply andb_prop in Hr as [_ Hr].
    apply Z.leb_le. apply Z.gtb_lt in Hr. lia.
Qed.

(** C4: [ban_account] without an account id (None or 0) runs no statement
    at all and still returns [length], the value it returns for every
    account id, with or without a row; the lookups of a missing account
    return 0 instead of raising. *)
Theorem ban_account_null (length : Z) (w : World) :
  ban_account None length w = (Ok length, w)
  /\ ban_account (Some 0) length w = (Ok length, w)
  /\ (forall account_id, fst (ban_account account_id length w) = Ok length)
  /\ (forall username,
        fst (get_account_id None (Some username) None w)
        = Ok (match find (fun r => String.eqb (accounts.username r) username)
                      (tbl_accounts (tables w)) with
              | Some r => accounts.id r
              | None => 0
              end))
  /\ (forall email_id email username,
        fst (get_account_id email username (Some email_id) w)
        = Ok (match find (fun r => accounts.email_id r =? email_id)
                      (tbl_accounts (tables w)) with
              | Some r => accounts.id r
              | None => 0
              end))
  /\ get_account_id None None None w = (Ok 0, w).
Proof.
  repeat split.
  - intros account_id. apply ban_account_value.
  - intros username. unfold get_account_id.
    rewrite (try_index0 (SELECT_account_by_username username) (fun rows => rows) 0 w).
    cbn [answered exec fst]. rewrite <- find_filter.
    destruct (filter _ (tbl_accounts (tables w))); reflexivity.
  - intros email_id email username. unfold get_account_id.
    rewrite (try_index0 (SELECT_account_by_email_id email_id) (fun rows => rows) 0 w).
    cbn [answered exec fst]. rewrite <- find_filter.
    destruct (filter _ (tbl_accounts (tables w))); reflexivity.
Qed.

End Throttle.

(** *** The theorems at concrete inputs *)


Lemma well_formed_after_success : well_formed_log Examples.after_success.
Proof.
  intros r Hin. simpl in Hin.
  repeat (destruct Hin as [<-|Hin]; [simpl; lia|]). contradiction.
Qed.

Lemma failed_logins_account_counts_witness :
  exists ban w',
    failed_logins_account (constants := Examples.constants) (hashing := Examples.hash)
      (Some 1) "alice"
      (Examples.world [Examples.alice 0] Examples.after_success 140)
    = (Ok (0, ban), w').
Proof.
  apply (failed_logins_account_counts (constants := Examples.constants)
           (hashing := Examples.hash) (Some 1) "alice"
           (Examples.world [Examples.alice 0] Examples.after_success 140)).
  - reflexivity.
  - exact well_formed_after_success.
Defined.

(** The scenario of the specification: five attempts from one IP within
    the window exhaust MAX_LOGIN_ATTEMPTS_IP = 5 and the IP is banned
    until now + 60. *)
Example failed_logins_ip_scenario :
  let r := failed_logins_ip (constants := Examples.constants) 7
             (Examples.world [] Examples.five_attempts 140) in
  fst r = Ok 0
  /\ tbl_ip_addresses (tables (snd r))
     = [{| ip_addresses.id := 7; ip_addresses.ban_until := 200;
           ip_addresses.ban_count := 3 |}].
Proof. split; reflexivity. Qed.

(** C6 as stated fails: alice logs in with the right password; the
    attempt is recorded with success = 1 and becomes the last success, so
    the count of the account check, which starts strictly after the last
    success, leaves it out. *)
Lemma successful_attempt_not_in_account_count :
  ~ current_attempt_in_all_counts (constants := Examples.constants)
      (hashing := Examples.hash) (Some 1) "secret" 7 "alice"
      (Examples.world [Examples.alice 0] Examples.one_failure 140).
Proof.
  intros Hall.
  specialize (Hall 5%nat (SELECT_count_account_attempts 140 3600 "alice")).
  specialize (Hall ltac:(simpl; lia) eq_refl).
  vm_compute in Hall. discriminate Hall.
Qed.

(** C10 as stated fails: alice's fourth failure inside the window makes
    the account check return -1, but the check has banned the account for
    3600 seconds, so [login] reports the ban and emits no account warning
    at all. *)
Lemma negative_account_value_not_in_warnings :
  ~ negative_values_in_warnings (constants := Examples.constants)
      (hashing := Examples.hash) (Some 1) "wrong" 7 "alice"
      (Examples.world [Examples.alice 0] Examples.after_success 140).
Proof.
  intros Hneg.
  destruct (Hneg (-1) _ (-1) 3600 _ _ eq_refl eq_refl eq_refl) as [_ Hacc].
  specialize (Hacc ltac:(lia)).
  vm_compute in Hacc. destruct Hacc as [E|[]]. discriminate E.
Qed.

End CoreProofs.

(** ** Properties of flaskapp/database/models/user.py *)
Module ModelsProofs.

Import Models.

Section Sessions.
Context {hashing : Hash}.

(** [get_session], case by case. *)
Lemma get_session_run (now : Z) (fresh : string) (user : option User.row)
    (token identifier : string) (o : Orm) :
  get_session now fresh user token identifier o
  = match find (has_token (quick_hash token)) (tbl_PersistentLogin (working o)) with
    | None => (Ok None, o)
    | Some session =>
        match session_user_identifier (working o) session with
        | Raise e => (Raise e, o)
        | Ok uid =>
            if negb (String.eqb (PersistentLogin.identifier session) identifier)
            then if String.eqb (slice_32_64 (PersistentLogin.identifier session)) uid
                 then (Raise AttributeError, o)
                 else (Ok None, o)
            else if negb (String.eqb (slice_32_64 (PersistentLogin.identifier session)) uid)
                 then (Ok None, o)
                 else (Ok (Some (with_token fresh session, fresh)),
                       rotate_in now fresh session o)
        end
    end.
Proof.
  unfold get_session, query_by_token. unfold bind at 1.
  change (fun p => String.eqb (PersistentLogin.token p) (quick_hash token))
    with (has_token (quick_hash token)).
  destruct (find (has_token (quick_hash token)) (tbl_PersistentLogin (working o)))
    as [session|]; [|reflexivity].
  destruct (negb (String.eqb (PersistentLogin.identifier session) identifier));
    unfold bind at 1, lift_result;
    destruct (session_user_identifier (working o) session) as [uid|e];
    try reflexivity.
  - destruct (String.eqb (slice_32_64 (PersistentLogin.identifier session)) uid);
      reflexivity.
  - destruct (negb (String.eqb (slice_32_64 (PersistentLogin.identifier session)) uid));
      reflexivity.
Qed.

Lemma find_some_in {A : Type} (f : A -> bool) (l : list A) (x : A) :
  find f l = Some x -> In x l /\ f x = true.
Proof. apply find_some. Qed.

Lemma NoDup_map_eq {A B : Type} (f : A -> B) (l : list A) (x y : A) :
  NoDup (map f l) -> In x l -> In y l -> f x = f y -> x = y.
Proof.
  induction l as [|a l IH]; [contradiction|].
  simpl. intros Hnd Hx Hy Hf. inversion Hnd as [|? ? Hnotin Hnd']; subst.
  destruct Hx as [->|Hx], Hy as [->|Hy]; auto.
  - exfalso. apply Hnotin. rewrite Hf. apply in_map. exact Hy.
  - exfalso. apply Hnotin. rewrite <- Hf. apply in_map. exact Hx.
Qed.

Lemma find_none_all {A : Type} (f : A -> bool) (l : list A) :
  (forall x, In x l -> f x = false) -> find f l = None.
Proof.
  intros Hall. induction l as [|a l IH]; [reflexivity|].
  simpl. rewrite (Hall a (or_introl eq_refl)). apply IH.
  intros x Hx. apply Hall. right. exact Hx.
Qed.

(** C7: a token whose hash no stored session holds is answered with None
    and the store is left as it is; hence, with the token column unique,
    once a validation has succeeded and stored the hash of the new token,
    a different hash from that of the old one, no row holds the old
    token's hash and every later validation with the old token is
    answered with None. *)
Theorem get_session_unknown_token (now : Z) (fresh : string)
    (user : option User.row) (token identifier : string) (o : Orm) :
  find (has_token (quick_hash token)) (tbl_PersistentLogin (working o)) = None ->
  get_session now fresh user token identifier o = (Ok None, o)
  /\ (forall o0 now0 fresh0 user0 identifier0 r o1,
        unique_tokens (working o0) ->
        get_session now0 fresh0 user0 token identifier0 o0 = (Ok (Some r), o1) ->
        quick_hash fresh0 <> quick_hash token ->
        snd r = fresh0
        /\ find (has_token (quick_hash token)) (tbl_PersistentLogin (working o1)) = None
        /\ forall now1 fresh1 user1 identifier1,
             get_session now1 fresh1 user1 token identifier1 o1 = (Ok None, o1)).
Proof.
  intros Hnone. split.
  - rewrite get_session_run, Hnone. reflexivity.
  - clear Hnone. intros o0 now0 fresh0 user0 identifier0 r o1 Huniq Hget Hfresh.
    rewrite get_session_run in Hget.
    destruct (find (has_token (quick_hash token)) (tbl_PersistentLogin (working o0)))
      as [session|] eqn:Hfind; [|discriminate].
    destruct (session_user_identifier (working o0) session) as [uid|e]; [|discriminate].
    destruct (negb (String.eqb (PersistentLogin.identifier session) identifier0)).
    { destruct (String.eqb _ uid); discriminate. }
    destruct (negb (String.eqb _ uid)); [discriminate|].
    injection Hget as <- <-.
    apply find_some_in in Hfind as [Hin Htok].
    apply String.eqb_eq in Htok.
    assert (Hgone : find (has_token (quick_hash token))
                      (tbl_PersistentLogin (working (rotate_in now0 fresh0 session o0)))
                    = None).
    { apply find_none_all. intros x Hx. cbn in Hx.
      apply in_map_iff in Hx as (p & Hp & Hpin).
      unfold has_token. apply String.eqb_neq.
      destruct (PersistentLogin.row_id p =? PersistentLogin.row_id session) eqn:Eid.
      - subst x. cbn. exact Hfresh.
      - subst x. intros Eq.
        assert (p = session).
        { apply (NoDup_map_eq PersistentLogin.token
                   (tbl_PersistentLogin (working o0))); auto.
          congruence. }
        subst p. rewrite Z.eqb_refl in Eid. discriminate. }
    split; [reflexivity|]. split; [exact Hgone|].
    intros now1 fresh1 user1 identifier1.
    rewrite get_session_run, Hgone. reflexivity.
Qed.

(** C8, what the code does where the claim expects the sessions to be
    deleted and None returned: for a session found by its token whose
    identifier differs from the supplied one and whose second half equals
    the identifier of its account, [get_session] raises AttributeError
    while it builds the filter of [all_sessions]; the delete and the
    commit are never reached, so the rows the session sees and the
    committed rows are as before, and the session just found is still
    stored. *)
Theorem get_session_mismatch_deletes_nothing (now : Z) (fresh : string)
    (user : option User.row) (token identifier : string) (o : Orm)
    (session : PersistentLogin.row) (uid : string) :
  find (has_token (quick_hash token)) (tbl_PersistentLogin (working o)) = Some session ->
  PersistentLogin.identifier session <> identifier ->
  session_user_identifier (working o) session = Ok uid ->
  slice_32_64 (PersistentLogin.identifier session) = uid ->
  let r := get_session now fresh user token identifier o in
  fst r = Raise AttributeError
  /\ working (snd r) = working o
  /\ committed (snd r) = committed o
  /\ In session (tbl_PersistentLogin (working (snd r))).
Proof.
  intros Hfind Hdiff Huid Hhalf. cbv zeta.
  rewrite get_session_run, Hfind, Huid.
  apply String.eqb_neq in Hdiff. rewrite Hdiff. cbn [negb].
  rewrite Hhalf, String.eqb_refl. cbn [fst snd].
  repeat split. apply find_some_in in Hfind. tauto.
Qed.

(** The other half of the mismatch branch: when the second half of the
    stored identifier is not the identifier of the account, None is
    returned and nothing is written. *)
Lemma get_session_mismatch_changed_account (now : Z) (fresh : string)
    (user : option User.row) (token identifier : string) (o : Orm)
    (session : PersistentLogin.row) (uid : string) :
  find (has_token (quick_hash token)) (tbl_PersistentLogin (working o)) = Some session ->
  PersistentLogin.identifier session <> identifier ->
  session_user_identifier (working o) session = Ok uid ->
  slice_32_64 (PersistentLogin.identifier session) <> uid ->
  get_session now fresh user token identifier o = (Ok None, o).
Proof.
  intros Hfind Hdiff Huid Hhalf.
  rewrite get_session_run, Hfind, Huid.
  apply String.eqb_neq in Hdiff, Hhalf. rewrite Hdiff, Hhalf. reflexivity.
Qed.

Lemma length_append (x y : string) :
  String.length (x ++ y) = (String.length x + String.length y)%nat.
Proof.
  induction x as [|ch x IH]; simpl; [reflexivity|]. rewrite IH. reflexivity.
Qed.

Lemma substring_append (a b : string) (m : nat) :
  substring (String.length a) m (a ++ b) = substring 0 m b.
Proof. induction a as [|c a IH]; [reflexivity|exact IH]. Qed.

Lemma substring_all (b : string) (m : nat) :
  (String.length b <= m)%nat -> substring 0 m b = b.
Proof.
  revert m. induction b as [|c b IH]; intros m Hle.
  - destruct m; reflexivity.
  - destruct m as [|m]; simpl in Hle; [lia|].
    simpl. f_equal. apply IH. lia.
Qed.

(** A session as [PersistentLogin.__init__] builds it, from a seed and a
    hash of 32 characters each, has the identifier of its user as second
    half. *)
Lemma PersistentLogin_init_second_half (t : Z) (seed : string) (u : User.row)
    (token : string) (o o' : Orm) (p : PersistentLogin.row) :
  String.length seed = 32%nat ->
  (forall x, String.length (quick_hash x) = 32%nat) ->
  PersistentLogin_init t seed u token o = (Ok p, o') ->
  User_identifier (working o) u = Ok (slice_32_64 (PersistentLogin.identifier p))
  /\ String.length (PersistentLogin.identifier p) = 64%nat.
Proof.
  intros Hseed Hlen. unfold PersistentLogin_init, bind, lift_result.
  destruct (User_identifier (working o) u) as [uid|e] eqn:Euid; [|discriminate].
  intros [= <- _]. cbn [PersistentLogin.identifier].
  assert (Huid : String.length uid = 32%nat).
  { revert Euid. unfold User_identifier.
    destruct (email_of (working o) u); [|discriminate].
    intros [= <-]. apply Hlen. }
  split.
  - unfold slice_32_64. rewrite <- Hseed at 1.
    rewrite substring_append, substring_all; [reflexivity|lia].
  - rewrite length_append, Hseed, Huid. reflexivity.
Qed.

Lemma find_map_same {A : Type} (g : A -> bool) (f : A -> A) (l : list A) :
  (forall x, g (f x) = g x) ->
  find g (map f l) = option_map f (find g l).
Proof.
  intros Hg. induction l as [|a l IH]; [reflexivity|].
  simpl. rewrite Hg. destruct (g a); [reflexivity|exact IH].
Qed.

Lemma append_cancel_r (a b c : string) : (a ++ c)%string = (b ++ c)%string -> a = b.
Proof.
  revert b. induction a as [|x a IH]; intros [|y b] Heq.
  - reflexivity.
  - apply (f_equal String.length) in Heq. rewrite !length_append in Heq.
    simpl in Heq. lia.
  - apply (f_equal String.length) in Heq. rewrite !length_append in Heq.
    simpl in Heq. lia.
  - simpl in Heq. injection Heq as -> Heq. f_equal. apply IH. exact Heq.
Qed.

(** C9: when the stored password of an account changes, and the hash
    does not collide on the old and the new text, the identifier of the
    account changes; a session whose second half was the old identifier
    then fails its next validation: whatever identifier is supplied, also
    the stored one, [get_session] returns None and leaves the store. *)
Theorem password_change_invalidates_sessions (t : Z) (password : string)
    (o : Orm) (session : PersistentLogin.row) (u : User.row) (e : Email.row) :
  let old_identifier := quick_hash (User.password u ++ Email.address e) in
  let new_identifier := quick_hash (password_hash password ++ Email.address e) in
  let o' := {| working := change_password t (User.row_id u) password (working o);
               committed := committed o |} in
  user_of (working o) session = Some u ->
  email_of (working o) u = Some e ->
  slice_32_64 (PersistentLogin.identifier session) = old_identifier ->
  password_hash password <> User.password u ->
  (new_identifier = old_identifier ->
   (password_hash password ++ Email.address e)%string
   = (User.password u ++ Email.address e)%string) ->
  session_user_identifier (working o) session = Ok old_identifier
  /\ session_user_identifier (working o') session = Ok new_identifier
  /\ new_identifier <> old_identifier
  /\ forall now fresh user token identifier,
       find (has_token (quick_hash token)) (tbl_PersistentLogin (working o'))
       = Some session ->
       get_session now fresh user token identifier o' = (Ok None, o').
Proof.
  intros old_identifier new_identifier o' Huser Hemail Hhalf Hchanged Hcollide.
  assert (Hold : session_user_identifier (working o) session = Ok old_identifier).
  { unfold session_user_identifier, User_identifier. rewrite Huser, Hemail. reflexivity. }
  assert (Hnew : session_user_identifier (working o') session = Ok new_identifier).
  { unfold session_user_identifier, user_of. cbn [o' working change_password with_User tbl_User].
    rewrite find_map_same.
    2:{ intros x. destruct (User.row_id x =? User.row_id u); reflexivity. }
    fold (user_of (working o) session). rewrite Huser. cbn [option_map].
    rewrite Z.eqb_refl.
    unfold User_identifier.
    change (email_of (change_password t (User.row_id u) password (working o))
              (set_password t password u))
      with (email_of (working o) u).
    rewrite Hemail. reflexivity. }
  assert (Hneq : new_identifier <> old_identifier).
  { intros Eq. apply Hchanged. apply (append_cancel_r _ _ (Email.address e)).
    apply Hcollide. exact Eq. }
  split; [exact Hold|]. split; [exact Hnew|]. split; [exact Hneq|].
  intros now fresh user token identifier Hfind.
  rewrite get_session_run, Hfind, Hnew, Hhalf.
  assert (E : String.eqb old_identifier new_identifier = false)
    by (apply String.eqb_neq; congruence).
  rewrite E. cbn [negb].
  destruct (negb (String.eqb (PersistentLogin.identifier session) identifier));
    reflexivity.
Qed.

End Sessions.

(** *** The theorems at concrete inputs *)

(** The round trip of C7: issue, validate with the token (which stores
    the hash of "u2"), validate with the old token again. *)
Lemma get_session_unknown_token_witness :
  fst (Models.get_session (hashing := Examples.session_hash) 30 "u2" None "t1"
         Examples.issued_identifier Examples.issued)
  = Ok (Some ({| PersistentLogin.row_id := 1; PersistentLogin.user_id := 1;
                 PersistentLogin.identifier := Examples.issued_identifier;
                 PersistentLogin.token := "u0000000000000000000000000000000";
                 PersistentLogin.created := 20; PersistentLogin.updated := 20 |},
              "u2"%string))
  /\ get_session (hashing := Examples.session_hash) 40 "v3" None "t1"
       Examples.issued_identifier Examples.validated
     = (Ok None, Examples.validated).
Proof.
  split; [reflexivity|].
  apply (get_session_unknown_token (hashing := Examples.session_hash) 40 "v3" None "t1"
           Examples.issued_identifier Examples.validated).
  reflexivity.
Defined.

(** The failing input of C8: the token of the issued session with another
    identifier. The call raises and nothing is deleted. *)
Lemma get_session_mismatch_deletes_nothing_witness :
  get_session (hashing := Examples.session_hash) 30 "u2" None "t1" "stolen"
    Examples.issued
  = (Raise AttributeError, Examples.issued)
  /\ List.length (tbl_PersistentLogin (working Examples.issued)) = 1%nat.
Proof.
  split; [|reflexivity].
  destruct (get_session_mismatch_deletes_nothing (hashing := Examples.session_hash)
              30 "u2" None "t1" "stolen" Examples.issued
              {| PersistentLogin.row_id := 1; PersistentLogin.user_id := 1;
                 PersistentLogin.identifier := Examples.issued_identifier;
                 PersistentLogin.token := "t0000000000000000000000000000000";
                 PersistentLogin.created := 20; PersistentLogin.updated := 20 |}
              "p0000000000000000000000000000000") as (Hraise & _).
  - reflexivity.
  - discriminate.
  - reflexivity.
  - reflexivity.
  - reflexivity.
Defined.

(** C9 at a concrete input: carol changes her password from "pw" to
    "new"; the session issued before is refused with its own
    identifier. *)
Lemma password_change_invalidates_sessions_witness :
  get_session (hashing := Examples.session_hash) 60 "u2" None "t1"
    Examples.issued_identifier
    {| working := change_password (hashing := Examples.session_hash) 50 1 "new"
                    (working Examples.issued);
       committed := committed Examples.issued |}
  = (Ok None,
     {| working := change_password (hashing := Examples.session_hash) 50 1 "new"
                     (working Examples.issued);
        committed := committed Examples.issued |}).
Proof.
  apply (password_change_invalidates_sessions (hashing := Examples.session_hash)
           50 "new" Examples.issued
           {| PersistentLogin.row_id := 1; PersistentLogin.user_id := 1;
              PersistentLogin.identifier := Examples.issued_identifier;
              PersistentLogin.token := "t0000000000000000000000000000000";
              PersistentLogin.created := 20; PersistentLogin.updated := 20 |}
           Examples.carol
           {| Email.row_id := 1; Email.address := "c@example.org";
              Email.created := 10; Email.updated := 10 |}).
  - reflexivity.
  - reflexivity.
  - reflexivity.
  - discriminate.
  - intros Eq. discriminate Eq.
  - reflexivity.
Defined.

End ModelsProofs.

(** ** Further properties of core/database.py *)
Module CoreExtras.

Import Core CoreProofs Vocabulary.

Lemma with_ip_addresses_same (t : Tables) :
  with_ip_addresses t (tbl_ip_addresses t) = t.
Proof. destruct t; reflexivity. Qed.

Lemma map_unchanged {A : Type} (f : A -> A) (l : list A) :
  (forall x, In x l -> f x = x) -> map f l = l.
Proof.
  intros Hf. induction l as [|a l IH]; [reflexivity|].
  simpl. rewrite (Hf a (or_introl eq_refl)). f_equal.
  apply IH. intros x Hx. apply Hf. right. exact Hx.
Qed.

Lemma find_app_none {A : Type} (f : A -> bool) (l l' : list A) :
  find f l = None -> find f (l ++ l') = find f l'.
Proof.
  induction l as [|a l IH]; [reflexivity|].
  simpl. destruct (f a); [discriminate|exact IH].
Qed.

Lemma find_app_some {A : Type} (f : A -> bool) (l l' : list A) (x : A) :
  find f l = Some x -> find f (l ++ l') = Some x.
Proof.
  induction l as [|a l IH]; [discriminate|].
  simpl. destruct (f a); [trivial|exact IH].
Qed.

Lemma hd_map_filter {A : Type} (f : A -> bool) (g : A -> Z) (l : list A) :
  hd 0 (map g (filter f l)) = match find f l with Some r => g r | None => 0 end.
Proof.
  rewrite <- find_filter. destruct (filter f l); reflexivity.
Qed.

(** [get_email_id], case by case. *)
Lemma get_email_id_run (email : string) (insert : bool) (w : World) :
  let looked := after (SELECT_email_id email) w in
  get_email_id email insert w
  = match find (same_address email) (tbl_emails (tables w)) with
    | Some r => (Ok (emails.id r), looked)
    | None =>
        if insert
        then (Ok (next_email_id (tables w)), after (INSERT_email email) looked)
        else (Ok 0, looked)
    end.
Proof.
  cbv zeta. unfold get_email_id, try_except_IndexError. rewrite bind_sql.
  cbn [answered exec fst]. rewrite <- find_filter.
  change (fun r => String.eqb (emails.email_address r) email) with (same_address email).
  destruct (filter (same_address email) (tbl_emails (tables w))) as [|r rows].
  - cbn [map index0 raise hd_error]. destruct insert; [|reflexivity].
    rewrite sql_eq. reflexivity.
  - reflexivity.
Qed.

(** X1: [get_email_id] is idempotent. A second call for the same address
    returns the id of the first call and leaves every table as the first
    call left it; the id is that of a stored row with the address; and
    with [insert=False] no table is ever changed. *)
Theorem get_email_id_idempotent (email : string) (w : World) :
  let first := get_email_id email true w in
  let second := get_email_id email true (snd first) in
  fst second = fst first
  /\ tables (snd second) = tables (snd first)
  /\ (exists r,
        fst first = Ok (emails.id r)
        /\ find (same_address email) (tbl_emails (tables (snd first))) = Some r)
  /\ tables (snd (get_email_id email false w)) = tables w.
Proof.
  cbv zeta. rewrite (get_email_id_run email true w), (get_email_id_run email false w).
  destruct (find (same_address email) (tbl_emails (tables w))) as [r|] eqn:Hfind.
  - cbn [fst snd]. rewrite get_email_id_run.
    change (tables (after (SELECT_email_id email) w)) with (tables w).
    rewrite Hfind. cbn [fst snd].
    repeat split. exists r. split; reflexivity.
  - cbn [fst snd]. rewrite get_email_id_run.
    set (w1 := after (INSERT_email email) (after (SELECT_email_id email) w)).
    assert (Hnew : find (same_address email) (tbl_emails (tables w1))
                   = Some {| emails.id := next_email_id (tables w);
                             emails.email_address := email;
                             emails.time_added := now (after (SELECT_email_id email) w) |}).
    { cbn [w1 after tables exec snd with_emails tbl_emails].
      change (tables (after (SELECT_email_id email) w)) with (tables w).
      rewrite (find_app_none _ _ _ Hfind). unfold find, same_address.
      cbn [emails.email_address]. rewrite String.eqb_refl. reflexivity. }
    rewrite Hnew. cbn [fst snd emails.id].
    repeat split.
    exists {| emails.id := next_email_id (tables w);
              emails.email_address := email;
              emails.time_added := now (after (SELECT_email_id email) w) |}.
    split; reflexivity.
Qed.

(** X2: looking an account up by an email address that is not stored
    stores the address: when no account refers to the id it is given, the
    call returns 0, the [emails] table has gained the address (stamped
    with the time of the INSERT) and [accounts] is unchanged. *)
Theorem get_account_id_stores_unknown_email (email : string)
    (username : option string) (w : World) :
  find (same_address email) (tbl_emails (tables w)) = None ->
  (forall r, In r (tbl_accounts (tables w)) ->
             accounts.email_id r <> next_email_id (tables w)) ->
  let r := get_account_id (Some email) username None w in
  fst r = Ok 0
  /\ tbl_emails (tables (snd r))
     = tbl_emails (tables w)
       ++ [{| emails.id := next_email_id (tables w);
              emails.email_address := email;
              emails.time_added := now (after (SELECT_email_id email) w) |}]
  /\ tbl_accounts (tables (snd r)) = tbl_accounts (tables w).
Proof.
  intros Hfind Hfresh. cbv zeta.
  set (w1 := after (INSERT_email email) (after (SELECT_email_id email) w)).
  set (q := SELECT_account_by_email_id (next_email_id (tables w))).
  assert (Hrun : get_account_id (Some email) username None w
                 = (Ok (hd 0 (answered q w1)), after q w1)).
  { unfold get_account_id, bind. rewrite get_email_id_run, Hfind.
    apply (try_index0 q (fun rows => rows) 0 w1). }
  rewrite Hrun. cbn [fst snd]. subst q. cbn [answered exec fst].
  replace (filter (fun r => accounts.email_id r =? next_email_id (tables w))
             (tbl_accounts (tables w1))) with (@nil accounts.row).
  - split; [reflexivity|]. split; reflexivity.
  - change (tbl_accounts (tables w1)) with (tbl_accounts (tables w)).
    symmetry. clear - Hfresh.
    induction (tbl_accounts (tables w)) as [|a l IH]; [reflexivity|].
    simpl. destruct (accounts.email_id a =? next_email_id (tables w)) eqn:E.
    + apply Z.eqb_eq in E. exfalso. apply (Hfresh a (or_introl eq_refl) E).
    + apply IH. intros r Hr. apply Hfresh. right. exact Hr.
Qed.

(** After [get_email_id] with [insert=True] the address is stored under
    the id returned, and nothing but [emails] has changed. *)
Lemma get_email_id_stored (email : string) (w : World) :
  exists eid row w',
    get_email_id email true w = (Ok eid, w')
    /\ find (same_address email) (tbl_emails (tables w')) = Some row
    /\ emails.id row = eid
    /\ tbl_accounts (tables w') = tbl_accounts (tables w)
    /\ tbl_ip_addresses (tables w') = tbl_ip_addresses (tables w)
    /\ tbl_login_attempts (tables w') = tbl_login_attempts (tables w).
Proof.
  rewrite get_email_id_run.
  destruct (find (same_address email) (tbl_emails (tables w))) as [r|] eqn:Hfind.
  - exists (emails.id r), r. eexists. split; [reflexivity|].
    split; [exact Hfind|]. repeat split.
  - eexists _, _, _. split; [reflexivity|].
    cbn [after tables exec snd with_emails tbl_emails].
    change (tables (after (SELECT_email_id email) w)) with (tables w).
    rewrite (find_app_none _ _ _ Hfind). unfold find, same_address.
    cbn [emails.email_address]. rewrite String.eqb_refl.
    split; [reflexivity|]. repeat split.
Qed.

Section Login.
Context {constants : Constants} {hashing : Hash}.

(** [login] when the IP or the login field is missing. *)
Lemma login_plain (account_id : option Z) (password : string)
    (ip_id : option Z) (form_data : option string) (w : World) :
  ip_id = None \/ form_data = None ->
  let cc := check_credentials account_id password
              (answered (SELECT_login_data account_id) w) in
  login account_id password ip_id form_data w
  = (Ok {| account := snd (fst cc); warnings := []; errors := snd cc;
           status := fst (fst cc) |},
     after (SELECT_login_data account_id) w).
Proof.
  intros Hmissing cc. unfold login. rewrite bind_sql. fold cc.
  destruct cc as [[v a] e].
  destruct ip_id as [ip|], form_data as [fd|]; try reflexivity.
  destruct Hmissing; discriminate.
Qed.

(** The credential check passes only on a stored row whose password
    checks. *)
Lemma credential_outcome_1 (account_id : option Z) (password : string) (w : World) :
  credential_outcome account_id password w = 1 ->
  exists a r,
    account_id = Some a
    /\ find (fun r => accounts.id r =? a) (tbl_accounts (tables w)) = Some r
    /\ password_check password (accounts.password r) = true
    /\ check_credentials account_id password
         (answered (SELECT_login_data account_id) w)
       = (1, Some (account_data account_id r), []).
Proof.
  unfold credential_outcome, check_credentials. cbn [answered exec fst].
  destruct account_id as [a|]; [|discriminate].
  pose proof (find_filter (fun r => accounts.id r =? a) (tbl_accounts (tables w)))
    as Hfind.
  destruct (filter (fun r => accounts.id r =? a) (tbl_accounts (tables w)))
    as [|r rows]; [discriminate|].
  destruct (password_check password (accounts.password r)) eqn:E; [|discriminate].
  intros _. exists a, r. repeat split; auto.
Qed.

(** X3: without an IP or without a login field [login] is read-only: it
    runs the one SELECT on [accounts], changes no table, records no
    attempt, gives no warning, and its status is 0 or 1. *)
Theorem login_without_ip_is_read_only (account_id : option Z) (password : string)
    (ip_id : option Z) (form_data : option string) (w : World) :
  ip_id = None \/ form_data = None ->
  exists res w',
    login account_id password ip_id form_data w = (Ok res, w')
    /\ tables w' = tables w
    /\ trace w' = trace w ++ [SELECT_login_data account_id]
    /\ warnings res = []
    /\ (status res = 0 \/ status res = 1).
Proof.
  intros Hmissing.
  rewrite (login_plain account_id password ip_id form_data w Hmissing).
  eexists _, _. split; [reflexivity|]. cbn [warnings status].
  repeat split.
  exact (credential_outcome_01 account_id password w).
Qed.

Lemma login_status_cases (account_id : option Z) (password : string)
    (ip_id : option Z) (form_data : option string) (w : World) :
  exists res w',
    login account_id password ip_id form_data w = (Ok res, w')
    /\ (status res = -1 \/ status res = 0 \/ status res = 1)
    /\ (status res = 1 ->
        exists a r,
          account_id = Some a
          /\ find (fun r => accounts.id r =? a) (tbl_accounts (tables w)) = Some r
          /\ password_check password (accounts.password r) = true
          /\ account res = Some (account_data account_id r)
          /\ errors res = []).
Proof.
  assert (Hsound : forall v,
            v = credential_outcome account_id password w -> v = 1 ->
            exists a r,
              account_id = Some a
              /\ find (fun r => accounts.id r =? a) (tbl_accounts (tables w)) = Some r
              /\ password_check password (accounts.password r) = true
              /\ snd (fst (check_credentials account_id password
                             (answered (SELECT_login_data account_id) w)))
                 = Some (account_data account_id r)
              /\ snd (check_credentials account_id password
                        (answered (SELECT_login_data account_id) w)) = []).
  { intros v -> H1.
    destruct (credential_outcome_1 account_id password w H1) as (a & r & Ha & Hf & Hp & Hcc).
    exists a, r. rewrite Hcc. repeat split; assumption. }
  destruct ip_id as [ip|], form_data as [fd|].
  2-4: rewrite login_plain by (auto; right; reflexivity);
       eexists _, _; (split; [reflexivity|]); cbn [status account errors]; split;
       [ right; exact (credential_outcome_01 account_id password w)
       | apply Hsound; reflexivity ].
  set (w1 := recorded account_id password ip fd w).
  pose proof (failed_logins_ip_run ip w1) as Hip. cbv zeta in Hip.
  destruct (failed_logins_account_ok account_id fd (snd (failed_logins_ip ip w1)))
    as (r_acc & ban & w3 & Hacc).
  rewrite Hip in Hacc. cbn [snd] in Hacc.
  rewrite (login_run account_id password ip fd w _ w3 _ r_acc ban Hip Hacc).
  eexists _, _. split; [reflexivity|]. cbn [status account errors].
  destruct (ban >? 0).
  - split; [left; reflexivity|]. discriminate.
  - rewrite app_nil_r. split.
    + right. exact (credential_outcome_01 account_id password w).
    + apply Hsound. reflexivity.
Qed.

(** X4: [login] reports status 1 only for a stored account whose
    password checks: the account id then names a row of [accounts], the
    supplied password passes [password_check] against the stored one, and
    the result carries the fields of that row and no error. *)
Theorem login_success_sound (account_id : option Z) (password : string)
    (ip_id : option Z) (form_data : option string) (w w' : World)
    (res : LoginData) :
  login account_id password ip_id form_data w = (Ok res, w') ->
  status res = 1 ->
  exists a r,
    account_id = Some a
    /\ find (fun r => accounts.id r =? a) (tbl_accounts (tables w)) = Some r
    /\ password_check password (accounts.password r) = true
    /\ account res = Some (account_data account_id r)
    /\ errors res = [].
Proof.
  intros Hlogin Hstatus.
  destruct (login_status_cases account_id password ip_id form_data w)
    as (res0 & w0 & Heq & _ & Hsound).
  rewrite Heq in Hlogin. injection Hlogin as <- <-.
  exact (Hsound Hstatus).
Qed.

Lemma identity_columns_set_ban (t len a : Z) (rows : list accounts.row) :
  map identity_columns (map (set_ban_account t len a) rows)
  = map identity_columns rows.
Proof.
  rewrite map_map. apply map_ext. intros r. unfold set_ban_account.
  destruct (accounts.id r =? a); reflexivity.
Qed.

(** What the IP check leaves alone. *)
Lemma failed_logins_ip_frame (ip : Z) (w : World) :
  let w' := snd (failed_logins_ip ip w) in
  tbl_emails (tables w') = tbl_emails (tables w)
  /\ tbl_accounts (tables w') = tbl_accounts (tables w)
  /\ tbl_login_attempts (tables w') = tbl_login_attempts (tables w)
  /\ next_attempt_id (tables w') = next_attempt_id (tables w)
  /\ next_email_id (tables w') = next_email_id (tables w).
Proof.
  cbv zeta. rewrite failed_logins_ip_run. cbn [snd].
  destruct (_ <=? 0); repeat split.
Qed.

(** What the account check leaves alone. *)
Lemma failed_logins_account_frame (account_id : option Z) (field_data : string)
    (w : World) :
  let w' := snd (failed_logins_account account_id field_data w) in
  tbl_emails (tables w') = tbl_emails (tables w)
  /\ tbl_ip_addresses (tables w') = tbl_ip_addresses (tables w)
  /\ tbl_login_attempts (tables w') = tbl_login_attempts (tables w)
  /\ next_attempt_id (tables w') = next_attempt_id (tables w)
  /\ next_email_id (tables w') = next_email_id (tables w)
  /\ map identity_columns (tbl_accounts (tables w'))
     = map identity_columns (tbl_accounts (tables w))
  /\ match truthy account_id with
     | None => tables w' = tables w
     | Some _ => True
     end.
Proof.
  cbv zeta.
  destruct (check_banned_sound account_id w) as (b & w1 & Hcb & Ht & _).
  rewrite (failed_logins_account_run account_id field_data w w1 b Hcb Ht).
  cbv zeta. destruct (negb (b =? 0)).
  { cbn [snd]. rewrite Ht. destruct (truthy account_id); repeat split. }
  destruct (_ <=? 0).
  - destruct (truthy account_id) as [a|]; cbn [snd after tables exec].
    + change (tables (after _ (after _ w1))) with (tables w1). rewrite Ht.
      cbn [with_accounts tbl_emails tbl_ip_addresses tbl_login_attempts
           next_attempt_id next_email_id tbl_accounts].
      rewrite identity_columns_set_ban. repeat split.
    + change (tables (after _ (after _ w1))) with (tables w1). rewrite Ht.
      repeat split.
  - cbn [snd]. change (tables (after _ (after _ w1))) with (tables w1). rewrite Ht.
    destruct (truthy account_id); repeat split.
Qed.

(** The tables after a [login]. *)
Lemma login_tables (account_id : option Z) (password : string)
    (ip_id : option Z) (form_data : option string) (w : World) :
  let w' := snd (login account_id password ip_id form_data w) in
  let suffix := match ip_id, form_data with
                | Some ip, Some fd => [current_attempt account_id password ip fd w]
                | _, _ => []
                end in
  tbl_emails (tables w') = tbl_emails (tables w)
  /\ tbl_login_attempts (tables w') = tbl_login_attempts (tables w) ++ suffix
  /\ next_attempt_id (tables w')
     = next_attempt_id (tables w) + Z.of_nat (List.length suffix)
  /\ map identity_columns (tbl_accounts (tables w'))
     = map identity_columns (tbl_accounts (tables w))
  /\ match truthy account_id with
     | None => tbl_accounts (tables w') = tbl_accounts (tables w)
     | Some _ => True
     end.
Proof.
  cbv zeta.
  destruct ip_id as [ip|], form_data as [fd|].
  2-4: rewrite login_plain by (auto; right; reflexivity); cbn [snd];
       change (tables (after (SELECT_login_data account_id) w)) with (tables w);
       rewrite app_nil_r, Z.add_0_r; destruct (truthy account_id); repeat split.
  set (w1 := recorded account_id password ip fd w).
  pose proof (failed_logins_ip_run ip w1) as Hip. cbv zeta in Hip.
  pose proof (failed_logins_ip_frame ip w1) as Hf1. cbv zeta in Hf1.
  rewrite Hip in Hf1. cbn [snd] in Hf1.
  destruct (failed_logins_account_ok account_id fd (snd (failed_logins_ip ip w1)))
    as (r_acc & ban & w3 & Hacc).
  pose proof (failed_logins_account_frame account_id fd (snd (failed_logins_ip ip w1)))
    as Hf2. cbv zeta in Hf2.
  rewrite Hacc in Hf2. rewrite Hip in Hacc, Hf2. cbn [snd] in Hacc, Hf2.
  rewrite (login_run account_id password ip fd w _ w3 _ r_acc ban Hip Hacc).
  cbn [snd].
  destruct Hf1 as (He1 & Ha1 & Hl1 & Hn1 & _).
  destruct Hf2 as (He2 & _ & Hl2 & Hn2 & _ & Ha2 & Hnone).
  rewrite He2, He1, Hl2, Hl1, Hn2, Hn1, Ha2, Ha1.
  split; [reflexivity|]. split; [reflexivity|]. split; [reflexivity|].
  split; [reflexivity|].
  destruct (truthy account_id); [exact I|].
  rewrite Hnone. exact Ha1.
Qed.

(** X5: a [login] never changes who an account is: id, email id,
    username, password, the three times, credits, permission and the
    activation flag of every account are the same afterwards, in the same
    order (only [ban_until] and [ban_count] may differ); the [emails]
    table is unchanged; and without an account id (None or 0) the
    [accounts] table is unchanged altogether. *)
Theorem login_keeps_accounts (account_id : option Z) (password : string)
    (ip_id : option Z) (form_data : option string) (w : World) :
  let w' := snd (login account_id password ip_id form_data w) in
  map identity_columns (tbl_accounts (tables w'))
  = map identity_columns (tbl_accounts (tables w))
  /\ tbl_emails (tables w') = tbl_emails (tables w)
  /\ match truthy account_id with
     | None => tbl_accounts (tables w') = tbl_accounts (tables w)
     | Some _ => True
     end.
Proof.
  destruct (login_tables account_id password ip_id form_data w)
    as (He & _ & _ & Ha & Hnone).
  cbv zeta. auto.
Qed.

(** X6: the attempt log is append-only. A [login] with an IP and a login
    field adds exactly one row, the current attempt, at the end, and takes
    one id from the counter; any other [login] adds nothing; the two
    checks and the two ban functions never touch the log. *)
Theorem attempt_log_append_only (account_id : option Z) (password : string)
    (ip_id : option Z) (form_data : option string) (w : World) :
  let log := tbl_login_attempts (tables w) in
  let w' := snd (login account_id password ip_id form_data w) in
  let suffix := match ip_id, form_data with
                | Some ip, Some fd => [current_attempt account_id password ip fd w]
                | _, _ => []
                end in
  tbl_login_attempts (tables w') = log ++ suffix
  /\ next_attempt_id (tables w')
     = next_attempt_id (tables w) + Z.of_nat (List.length suffix)
  /\ (forall ip, tbl_login_attempts (tables (snd (failed_logins_ip ip w))) = log)
  /\ (forall a fd,
        tbl_login_attempts (tables (snd (failed_logins_account a fd w))) = log)
  /\ (forall ip len, tbl_login_attempts (tables (snd (ban_ip ip len w))) = log)
  /\ (forall a len, tbl_login_attempts (tables (snd (ban_account a len w))) = log).
Proof.
  destruct (login_tables account_id password ip_id form_data w)
    as (_ & Hl & Hn & _ & _).
  cbv zeta. split; [exact Hl|]. split; [exact Hn|].
  split; [intros ip; apply failed_logins_ip_frame|].
  split; [intros a fd; apply failed_logins_account_frame|].
  split.
  - intros ip len. unfold ban_ip. rewrite bind_sql. reflexivity.
  - intros a len. unfold ban_account. destruct (truthy a); [|reflexivity].
    rewrite bind_sql. reflexivity.
Qed.

(** X7: an IP that has no row in [ip_addresses] is never banned: the
    check still returns its count, but the UPDATE matches nothing and
    every table is as before, however many attempts there were. *)
Theorem failed_logins_ip_without_row (ip : Z) (w : World) :
  (forall r, In r (tbl_ip_addresses (tables w)) -> ip_addresses.id r <> ip) ->
  tables (snd (failed_logins_ip ip w)) = tables w
  /\ fst (failed_logins_ip ip w)
     = Ok (MAX_LOGIN_ATTEMPTS_IP
           - count (where_ip_attempts (now w) BAN_TIME_IP ip)
               (tbl_login_attempts (tables w))).
Proof.
  intros Hnone. rewrite failed_logins_ip_run. cbn [fst snd].
  split; [|reflexivity].
  destruct (_ <=? 0); [|reflexivity].
  cbn [after tables exec snd].
  change (tables (after (SELECT_count_ip_attempts BAN_TIME_IP ip) w)) with (tables w).
  rewrite map_unchanged.
  - apply with_ip_addresses_same.
  - intros r Hr. unfold set_ban_ip.
    destruct (ip_addresses.id r =? ip) eqn:E; [|reflexivity].
    apply Z.eqb_eq in E. exfalso. exact (Hnone r Hr E).
Qed.

(** X8: banning an IP again does not add the lengths up: after two
    [ban_ip] calls the window ends at the time of the second statement
    plus the second length, whatever the first call had set, and
    [ban_count] has grown by 2. Both calls return their length. *)
Theorem ban_ip_twice (ip len1 len2 : Z) (w : World) :
  let first := ban_ip ip len1 w in
  let second := ban_ip ip len2 (snd first) in
  fst first = Ok len1
  /\ fst second = Ok len2
  /\ tbl_ip_addresses (tables (snd second))
     = map (fun r => if ip_addresses.id r =? ip
                     then {| ip_addresses.id := ip_addresses.id r;
                             ip_addresses.ban_until := now (snd first) + len2;
                             ip_addresses.ban_count := ip_addresses.ban_count r + 2 |}
                     else r)
         (tbl_ip_addresses (tables w)).
Proof.
  cbv zeta. unfold ban_ip. rewrite bind_sql. cbn [fst snd].
  rewrite bind_sql. cbn [fst snd ret].
  split; [reflexivity|]. split; [reflexivity|].
  cbn [after tables exec snd with_ip_addresses tbl_ip_addresses].
  rewrite map_map. apply map_ext. intros r. unfold set_ban_ip.
  destruct (ip_addresses.id r =? ip) eqn:E.
  - cbn [ip_addresses.id]. rewrite E. cbn [ip_addresses.ban_count ip_addresses.id].
    f_equal. lia.
  - rewrite E. reflexivity.
Qed.

End Login.

(** [ORDER BY ... DESC] keeps the times and puts them in descending
    order. *)
Lemma insert_desc_In (x y : Z) (l : list Z) :
  In y (insert_desc x l) <-> y = x \/ In y l.
Proof.
  induction l as [|a l IH]; simpl.
  - intuition.
  - destruct (a <=? x); simpl; [intuition|]. rewrite IH. intuition.
Qed.

Lemma order_by_desc_In (y : Z) (l : list Z) :
  In y (order_by_desc l) <-> In y l.
Proof.
  induction l as [|a l IH]; simpl; [tauto|].
  rewrite insert_desc_In, IH. intuition.
Qed.

Lemma insert_desc_descending (x : Z) (l : list Z) :
  descending l -> descending (insert_desc x l).
Proof.
  induction l as [|a l IH]; simpl.
  - intros _. split; [intros y []|exact I].
  - intros [Hle Hd]. destruct (a <=? x) eqn:E.
    + apply Z.leb_le in E. simpl. split; [|split; assumption].
      intros y [<-|Hy]; [exact E|]. specialize (Hle y Hy). lia.
    + apply Z.leb_gt in E. simpl. split; [|apply IH; exact Hd].
      intros y Hy. apply insert_desc_In in Hy as [->|Hy]; [lia|auto].
Qed.

Lemma order_by_desc_descending (l : list Z) : descending (order_by_desc l).
Proof.
  induction l as [|a l IH]; simpl; [exact I|].
  apply insert_desc_descending. exact IH.
Qed.

Lemma insert_desc_later (t x : Z) (l : list Z) :
  List.length (later_than t (insert_desc x l))
  = List.length (later_than t (x :: l)).
Proof.
  induction l as [|a l IH]; [reflexivity|].
  simpl. destruct (a <=? x); [reflexivity|].
  simpl in IH |- *. destruct (a >? t), (x >? t); simpl in IH |- *; lia.
Qed.

Lemma order_by_desc_later (t : Z) (l : list Z) :
  List.length (later_than t (order_by_desc l)) = List.length (later_than t l).
Proof.
  induction l as [|a l IH]; [reflexivity|].
  cbn [order_by_desc]. rewrite insert_desc_later.
  simpl. destruct (a >? t); simpl; lia.
Qed.

(** In a descending list the times later than [t] come first. *)
Lemma descending_nth (t : Z) (l : list Z) (k : nat) :
  descending l ->
  (k < List.length (later_than t l))%nat ->
  exists x, nth_error l k = Some x /\ t < x.
Proof.
  revert k. induction l as [|a l IH]; intros k Hd Hk; [simpl in Hk; lia|].
  destruct Hd as [Hle Hd]. simpl in Hk.
  destruct (a >? t) eqn:E.
  - apply Z.gtb_lt in E. destruct k as [|k].
    + exists a. split; [reflexivity|exact E].
    + simpl in Hk. apply (IH k Hd). lia.
  - exfalso. rewrite Z.gtb_ltb in E. apply Z.ltb_ge in E.
    assert (Hnone : later_than t l = []).
    { clear - Hle E. induction l as [|b l IH]; [reflexivity|].
      simpl. destruct (b >? t) eqn:Eb.
      - apply Z.gtb_lt in Eb. specialize (Hle b (or_introl eq_refl)). lia.
      - apply IH. intros y Hy. apply Hle. right. exact Hy. }
    rewrite Hnone in Hk. simpl in Hk. lia.
Qed.

Lemma hd_skipn_map {A B : Type} (g : A -> B) (d : B) (l : list A) (k : nat) (x : A) :
  nth_error l k = Some x ->
  hd d (firstn 1 (skipn k (map g l))) = g x.
Proof.
  revert k. induction l as [|a l IH]; intros [|k] Hn; try discriminate.
  - injection Hn as ->. reflexivity.
  - simpl in Hn |- *. apply IH. exact Hn.
Qed.

Lemma later_than_filter {A : Type} (f : A -> bool) (g : A -> Z) (t : Z)
    (l : list A) :
  List.length (filter (fun r => f r && (g r >? t)) l)
  = List.length (later_than t (map g (filter f l))).
Proof.
  induction l as [|a l IH]; [reflexivity|].
  simpl. destruct (f a); simpl; [|exact IH].
  destruct (g a >? t); simpl; rewrite IH; reflexivity.
Qed.

Section Bans.
Context {constants : Constants} {hashing : Hash}.

(** X9: a flood against a login name without an account is throttled at
    once. When the count of the account check has reached a maximum of at
    least 1, on a well-formed log, and the statement that estimates the
    ban runs in the same second as the count, the ban seconds returned
    are positive, nothing is written to any table, and the estimate is at
    most BAN_TIME_ACCOUNT when no logged attempt lies in the future. *)
Theorem unknown_account_ban_is_positive (account_id : option Z)
    (field_data : string) (w : World) :
  let h := quick_hash field_data in
  let log := tbl_login_attempts (tables w) in
  let w2 := after (SELECT_last_login h) w in
  let last := most_recent (map login_attempts.attempt_time
                             (filter (where_last_login h) log)) in
  let n := count (where_account_attempts (now w2) last BAN_TIME_ACCOUNT h) log in
  let w3 := after (SELECT_count_account_attempts last BAN_TIME_ACCOUNT h) w2 in
  truthy account_id = None ->
  well_formed_log log ->
  1 <= MAX_LOGIN_ATTEMPTS_ACCOUNT ->
  MAX_LOGIN_ATTEMPTS_ACCOUNT <= n ->
  now w3 = now w2 ->
  exists ban w',
    failed_logins_account account_id field_data w
    = (Ok (MAX_LOGIN_ATTEMPTS_ACCOUNT - n, ban), w')
    /\ 0 < ban
    /\ tables w' = tables w
    /\ ((forall r, In r log -> login_attempts.attempt_time r <= now w3) ->
        ban <= BAN_TIME_ACCOUNT).
Proof.
  intros h log w2 last n w3 Hnull Hwf Hmax Hfull Hsame.
  assert (Hcb : check_banned account_id w = (Ok 0, w))
    by (unfold check_banned; rewrite Hnull; reflexivity).
  rewrite (failed_logins_account_run account_id field_data w w 0 Hcb eq_refl).
  cbv zeta. fold h log last w2 n w3. cbn [Z.eqb negb].
  replace (MAX_LOGIN_ATTEMPTS_ACCOUNT - n <=? 0) with true
    by (symmetry; apply Z.leb_le; lia).
  rewrite Hnull.
  set (T := Z.max last (now w2 - BAN_TIME_ACCOUNT)).
  set (times := order_by_desc
                  (map login_attempts.attempt_time (filter (where_ban_offset h) log))).
  assert (Hn : n = Z.of_nat (List.length (later_than T times))).
  { unfold n, count. f_equal. subst times. rewrite order_by_desc_later.
    rewrite <- later_than_filter. f_equal. apply filter_ext_in. intros r Hr.
    rewrite (where_account_attempts_failed log (now w2) BAN_TIME_ACCOUNT h r Hwf Hr).
    fold last T. unfold where_ban_offset. reflexivity. }
  destruct (descending_nth T times (Z.to_nat (- (MAX_LOGIN_ATTEMPTS_ACCOUNT - n))))
    as (x & Hx & HTx).
  { apply order_by_desc_descending. }
  { lia. }
  assert (Hoff : hd 0 (answered (SELECT_ban_offset (- (MAX_LOGIN_ATTEMPTS_ACCOUNT - n)) h) w3)
                 = now w3 - x).
  { cbn [answered exec fst].
    change (tbl_login_attempts (tables w3)) with log. fold times.
    apply (hd_skipn_map (fun at_ => now w3 - at_) 0 times _ x Hx). }
  rewrite Hoff.
  eexists _, _. split; [reflexivity|].
  split; [unfold T in HTx; lia|].
  split; [reflexivity|].
  intros Hpast.
  assert (Hin : In x times) by (apply nth_error_In with (n := Z.to_nat (- (MAX_LOGIN_ATTEMPTS_ACCOUNT - n))); exact Hx).
  apply order_by_desc_In, in_map_iff in Hin as (r & <- & Hr).
  apply filter_In in Hr as [Hr _]. specialize (Hpast r Hr). lia.
Qed.

Lemma check_banned_row (a : Z) (w : World) (acc : accounts.row) :
  a <> 0 ->
  find (fun r => accounts.id r =? a) (tbl_accounts (tables w)) = Some acc ->
  check_banned (Some a) w
  = (Ok (Z.max (accounts.ban_until acc) (now w) - now w),
     after (SELECT_ban_remaining a) w).
Proof.
  intros Ha Hfind. unfold check_banned, truthy.
  destruct (a =? 0) eqn:E; [lia|].
  rewrite (try_index0 (SELECT_ban_remaining a) (fun rows => rows) 0 w).
  cbn [answered exec fst]. rewrite hd_map_filter, Hfind. reflexivity.
Qed.

(** X10: a ban issued by the account check holds. For an existing
    account that is not banned, a count that has reached the maximum makes
    the check return BAN_TIME_ACCOUNT and write ban_until = time of the
    UPDATE + BAN_TIME_ACCOUNT and ban_count + 1 on the row; from then on,
    in every state with that [accounts] table and a time before ban_until,
    the check for that account returns 0 attempts and the seconds left,
    for any login field. *)
Theorem ban_then_check (a : Z) (field_data : string) (w : World)
    (acc : accounts.row) :
  let h := quick_hash field_data in
  let log := tbl_login_attempts (tables w) in
  let w1 := after (SELECT_ban_remaining a) w in
  let w2 := after (SELECT_last_login h) w1 in
  let last := most_recent (map login_attempts.attempt_time
                             (filter (where_last_login h) log)) in
  let n := count (where_account_attempts (now w2) last BAN_TIME_ACCOUNT h) log in
  let w3 := after (SELECT_count_account_attempts last BAN_TIME_ACCOUNT h) w2 in
  let w' := after (UPDATE_ban_account BAN_TIME_ACCOUNT a) w3 in
  let until := now w3 + BAN_TIME_ACCOUNT in
  a <> 0 ->
  find (fun r => accounts.id r =? a) (tbl_accounts (tables w)) = Some acc ->
  accounts.ban_until acc <= now w ->
  MAX_LOGIN_ATTEMPTS_ACCOUNT <= n ->
  failed_logins_account (Some a) field_data w
  = (Ok (MAX_LOGIN_ATTEMPTS_ACCOUNT - n, BAN_TIME_ACCOUNT), w')
  /\ (exists banned,
        find (fun r => accounts.id r =? a) (tbl_accounts (tables w')) = Some banned
        /\ accounts.ban_until banned = until
        /\ accounts.ban_count banned = accounts.ban_count acc + 1
        /\ identity_columns banned = identity_columns acc)
  /\ (forall later other_field,
        tbl_accounts (tables later) = tbl_accounts (tables w') ->
        now later < until ->
        failed_logins_account (Some a) other_field later
        = (Ok (0, until - now later), after (SELECT_ban_remaining a) later)).
Proof.
  intros h log w1 w2 last n w3 w' until Ha Hfind Hfree Hfull.
  pose proof (check_banned_row a w acc Ha Hfind) as Hcb.
  replace (Z.max (accounts.ban_until acc) (now w) - now w) with 0 in Hcb by lia.
  assert (Htruthy : truthy (Some a) = Some a)
    by (unfold truthy; destruct (a =? 0) eqn:E; [lia|reflexivity]).
  assert (Hbanned : find (fun r => accounts.id r =? a) (tbl_accounts (tables w'))
                    = Some (set_ban_account (now w3) BAN_TIME_ACCOUNT a acc)).
  { cbn [w' after tables exec snd with_accounts tbl_accounts].
    change (tbl_accounts (tables w3)) with (tbl_accounts (tables w)).
    rewrite ModelsProofs.find_map_same.
    - rewrite Hfind. reflexivity.
    - intros r. unfold set_ban_account.
      destruct (accounts.id r =? a) eqn:E; cbn [accounts.id]; rewrite E; reflexivity. }
  assert (Hid : (accounts.id acc =? a) = true)
    by (apply find_some in Hfind; tauto).
  split; [|split].
  - rewrite (failed_logins_account_run (Some a) field_data w w1 0 Hcb eq_refl).
    cbv zeta. fold h log last w2 n w3. cbn [Z.eqb negb].
    replace (MAX_LOGIN_ATTEMPTS_ACCOUNT - n <=? 0) with true
      by (symmetry; apply Z.leb_le; lia).
    rewrite Htruthy. reflexivity.
  - exists (set_ban_account (now w3) BAN_TIME_ACCOUNT a acc).
    split; [exact Hbanned|]. unfold set_ban_account. rewrite Hid.
    repeat split.
  - intros later other_field Hacc Hbefore.
    assert (Hfind' : find (fun r => accounts.id r =? a) (tbl_accounts (tables later))
                     = Some (set_ban_account (now w3) BAN_TIME_ACCOUNT a acc))
      by (rewrite Hacc; exact Hbanned).
    pose proof (check_banned_row a later _ Ha Hfind') as Hcb'.
    unfold set_ban_account in Hcb'. rewrite Hid in Hcb'.
    cbn [accounts.ban_until] in Hcb'. fold until in Hcb'.
    replace (Z.max until (now later) - now later) with (until - now later) in Hcb' by lia.
    rewrite (failed_logins_account_run (Some a) other_field later _ _ Hcb' eq_refl).
    cbv zeta.
    replace (negb (until - now later =? 0)) with true; [reflexivity|].
    symmetry. apply negb_true_iff, Z.eqb_neq. lia.
Qed.

End Bans.

(** *** The theorems at concrete inputs *)

Lemma get_account_id_stores_unknown_email_witness :
  fst (get_account_id (Some "bob@example.org"%string) None None
         MoreExamples.world_with_alice) = Ok 0
  /\ List.length (tbl_emails (tables (snd (get_account_id
                                             (Some "bob@example.org"%string) None None
                                             MoreExamples.world_with_alice)))) = 2%nat.
Proof.
  destruct (get_account_id_stores_unknown_email "bob@example.org" None
              MoreExamples.world_with_alice) as (H0 & Hemails & _).
  - reflexivity.
  - intros r [<-|[]]. discriminate.
  - split; [exact H0|]. rewrite Hemails. reflexivity.
Defined.

Lemma login_without_ip_is_read_only_witness :
  exists res w',
    login (constants := Examples.constants) (hashing := Examples.hash)
      (Some 1) "secret" None (Some "alice"%string) MoreExamples.world_with_alice
    = (Ok res, w')
    /\ tables w' = MoreExamples.tables_with_alice
    /\ trace w' = [SELECT_login_data (Some 1)]
    /\ warnings res = []
    /\ (status res = 0 \/ status res = 1).
Proof.
  apply (login_without_ip_is_read_only (constants := Examples.constants)
           (hashing := Examples.hash) (Some 1) "secret" None (Some "alice"%string)
           MoreExamples.world_with_alice).
  left. reflexivity.
Defined.

Lemma login_success_sound_witness :
  exists a r,
    Some 1 = Some a
    /\ find (fun r => accounts.id r =? a) [Examples.alice 0] = Some r
    /\ password_check (Hash := Examples.hash) "secret" (accounts.password r) = true
    /\ Some (account_data (Some 1) (Examples.alice 0))
       = Some (account_data (Some 1) r)
    /\ @nil string = [].
Proof.
  apply (login_success_sound (constants := Examples.constants)
           (hashing := Examples.hash) (Some 1) "secret" None None
           MoreExamples.world_with_alice
           (after (SELECT_login_data (Some 1)) MoreExamples.world_with_alice)
           {| account := Some (account_data (Some 1) (Examples.alice 0));
              warnings := []; errors := []; status := 1 |}).
  - reflexivity.
  - reflexivity.
Defined.

Lemma failed_logins_ip_without_row_witness :
  tables (snd (failed_logins_ip (constants := Examples.constants) 9
                 (Examples.world [] [Examples.attempt 1 "a" 9 139 0] 140)))
  = tables (Examples.world [] [Examples.attempt 1 "a" 9 139 0] 140)
  /\ fst (failed_logins_ip (constants := Examples.constants) 9
            (Examples.world [] [Examples.attempt 1 "a" 9 139 0] 140))
     = Ok 4.
Proof.
  apply (failed_logins_ip_without_row (constants := Examples.constants) 9
           (Examples.world [] [Examples.attempt 1 "a" 9 139 0] 140)).
  intros r [<-|[]]. discriminate.
Defined.

Lemma well_formed_flood : well_formed_log MoreExamples.flood.
Proof.
  intros r Hin. simpl in Hin.
  repeat (destruct Hin as [<-|Hin]; [simpl; lia|]). contradiction.
Qed.

Lemma unknown_account_ban_is_positive_witness :
  exists ban w',
    failed_logins_account (constants := Examples.constants) (hashing := Examples.hash)
      None "nosuchuser" (Examples.world [] MoreExamples.flood 140)
    = (Ok (-1, ban), w')
    /\ 0 < ban
    /\ tables w' = tables (Examples.world [] MoreExamples.flood 140)
    /\ ((forall r, In r MoreExamples.flood -> login_attempts.attempt_time r <= 140) ->
        ban <= 3600).
Proof.
  apply (unknown_account_ban_is_positive (constants := Examples.constants)
           (hashing := Examples.hash) None "nosuchuser"
           (Examples.world [] MoreExamples.flood 140)).
  - reflexivity.
  - exact well_formed_flood.
  - simpl. lia.
  - vm_compute. discriminate.
  - reflexivity.
Defined.

Lemma ban_then_check_witness :
  failed_logins_account (constants := Examples.constants) (hashing := Examples.hash)
    (Some 1) "alice" (Examples.world [Examples.alice 0] Examples.after_success 140)
  = (Ok (0, 3600),
     after (UPDATE_ban_account 3600 1)
       (after (SELECT_count_account_attempts 100 3600 "alice")
          (after (SELECT_last_login "alice")
             (after (SELECT_ban_remaining 1)
                (Examples.world [Examples.alice 0] Examples.after_success 140))))).
Proof.
  apply (ban_then_check (constants := Examples.constants) (hashing := Examples.hash)
           1 "alice" (Examples.world [Examples.alice 0] Examples.after_success 140)
           (Examples.alice 0)).
  - lia.
  - reflexivity.
  - simpl. lia.
  - vm_compute. discriminate.
Defined.

End CoreExtras.

(** ** Properties of [insert_account] *)
Module RegistrationProofs.

Import Core CoreProofs Vocabulary CoreExtras Registration.

Lemma run_eq {A : Type} (cmd : M World A) (c : Connection) :
  run cmd c
  = (fst (cmd (view c)),
     {| database := {| base := tables (snd (cmd (view c)));
                       next_account_id := next_account_id (database c) |};
        conn_clock := conn_clock c;
        conn_trace := conn_trace c ++ map Base (trace (snd (cmd (view c)))) |}).
Proof. unfold run. destruct (cmd (view c)); reflexivity. Qed.

Lemma count_zero_filter {A : Type} (f : A -> bool) (l : list A) :
  count f l = 0 -> filter f l = [].
Proof.
  unfold count. destruct (filter f l); [reflexivity|]. simpl. lia.
Qed.

Lemma filter_nil_none {A : Type} (f : A -> bool) (l : list A) (x : A) :
  filter f l = [] -> In x l -> f x = false.
Proof.
  intros Hnil Hin. destruct (f x) eqn:E; [|reflexivity].
  assert (In x (filter f l)) by (apply filter_In; auto).
  rewrite Hnil in H. contradiction.
Qed.

Section Insert.
Context {params : Params}.

(** [insert_account] once the email has its id. *)
Lemma insert_account_run (email password username : string) (c : Connection) :
  exists eid row c1,
    run (get_email_id email true) c = (Ok eid, c1)
    /\ find (same_address email) (tbl_emails (base (database c1))) = Some row
    /\ emails.id row = eid
    /\ tbl_accounts (base (database c1)) = tbl_accounts (base (database c))
    /\ next_account_id (database c1) = next_account_id (database c)
    /\ insert_account email password username c
       = (let n := count (fun r => accounts.email_id r =? eid)
                     (tbl_accounts (base (database c))) in
          let c2 := snd (sql_count_accounts eid c1) in
          if negb (n =? 0) then (Ok None, c2)
          else (Ok (Some (next_account_id (database c))),
                snd (sql_insert_account eid username (password_hash password)
                       PERMISSION_REGISTERED c2))).
Proof.
  destruct (get_email_id_stored email (view c))
    as (eid & row & w' & Hget & Hfind & Hid & Hacc & _).
  exists eid, row. eexists.
  assert (Hrun : run (get_email_id email true) c
                 = (Ok eid,
                    {| database := {| base := tables w';
                                      next_account_id := next_account_id (database c) |};
                       conn_clock := conn_clock c;
                       conn_trace := conn_trace c ++ map Base (trace w') |}))
    by (rewrite run_eq, Hget; reflexivity).
  split; [exact Hrun|]. split; [exact Hfind|]. split; [exact Hid|].
  split; [exact Hacc|]. split; [reflexivity|].
  unfold insert_account. unfold bind at 1. rewrite Hrun.
  unfold bind at 1. unfold sql_count_accounts at 1.
  cbn [database base]. rewrite Hacc. cbn [view tables] .
  cbv zeta.
  destruct (negb (count (fun r => accounts.email_id r =? eid)
                    (tbl_accounts (base (database c))) =? 0)); reflexivity.
Qed.

(** X11: [insert_account] either refuses or appends. It returns False
    (here None) exactly when an account already refers to the id of the
    email, and then [accounts] and its counter are unchanged; otherwise
    it returns the next id of [accounts] and appends one row with that
    id, the email's id, the hash of the password, the permission
    PERMISSION_REGISTERED and the three times set to the time of the
    INSERT: the INSERT is the last statement of the call, it runs on the
    connection that the count query leaves, and the times are the clock
    of that connection when the INSERT runs. It never raises. *)
Theorem insert_account_outcome (email password username : string)
    (c : Connection) :
  let r := insert_account email password username c in
  let accs := tbl_accounts (base (database c)) in
  let accs' := tbl_accounts (base (database (snd r))) in
  exists eid row,
    find (same_address email) (tbl_emails (base (database (snd r)))) = Some row
    /\ emails.id row = eid
    /\ match fst r with
       | Ok None =>
           (exists acc, In acc accs /\ accounts.email_id acc = eid)
           /\ accs' = accs
           /\ next_account_id (database (snd r)) = next_account_id (database c)
       | Ok (Some id) =>
           let c1 := snd (run (get_email_id email true) c) in
           let c2 := snd (sql_count_accounts eid c1) in
           (forall acc, In acc accs -> accounts.email_id acc <> eid)
           /\ id = next_account_id (database c)
           /\ accs' = accs ++ [new_account id (conn_now c2) eid username
                                 (password_hash password) PERMISSION_REGISTERED]
           /\ conn_trace (snd r)
              = conn_trace c2 ++ [INSERT_account eid username
                                    (password_hash password) PERMISSION_REGISTERED]
           /\ conn_now c2 = conn_clock c (List.length (conn_trace (snd r)) - 1)
           /\ next_account_id (database (snd r)) = next_account_id (database c) + 1
       | Raise _ => False
       end.
Proof.
  cbv zeta.
  destruct (insert_account_run email password username c)
    as (eid & row & c1 & Hrun & Hfind & Hid & Hacc & Hnext & Heq).
  rewrite Heq, Hrun. cbv zeta. exists eid, row.
  destruct (negb (_ =? 0)) eqn:En; cbn [fst snd].
  - split; [exact Hfind|]. split; [exact Hid|].
    apply negb_true_iff, Z.eqb_neq in En.
    split; [|split; [exact Hacc|exact Hnext]].
    unfold count in En.
    destruct (filter (fun r => accounts.email_id r =? eid)
                (tbl_accounts (base (database c)))) as [|acc l] eqn:Ef;
      [simpl in En; lia|].
    assert (Hin : In acc (filter (fun r => accounts.email_id r =? eid)
                            (tbl_accounts (base (database c)))))
      by (rewrite Ef; left; reflexivity).
    apply filter_In in Hin as [Hin Heid]. apply Z.eqb_eq in Heid.
    exists acc. split; assumption.
  - assert (Hclock : conn_clock c1 = conn_clock c).
    { rewrite run_eq in Hrun. injection Hrun as _ <-. reflexivity. }
    cbn [sql_insert_account sql_count_accounts snd database base
         with_accounts tbl_emails tbl_accounts next_account_id conn_trace].
    split; [exact Hfind|]. split; [exact Hid|].
    apply negb_false_iff, Z.eqb_eq in En.
    split.
    { intros acc Hin Heq'.
      pose proof (filter_nil_none _ _ acc (count_zero_filter _ _ En) Hin) as Hf.
      simpl in Hf. apply Z.eqb_neq in Hf. contradiction. }
    split; [reflexivity|]. rewrite Hacc, Hnext.
    split; [reflexivity|]. split; [reflexivity|]. split; [|reflexivity].
    unfold conn_now. cbn [conn_clock conn_trace]. rewrite Hclock.
    f_equal. rewrite !length_app. cbn [List.length]. lia.
Qed.

Lemma count_pos_in {A : Type} (f : A -> bool) (l : list A) (x : A) :
  In x l -> f x = true -> count f l <> 0.
Proof.
  intros Hin Hf. unfold count.
  assert (Hx : In x (filter f l)) by (apply filter_In; auto).
  destruct (filter f l); [contradiction|]. simpl. lia.
Qed.

(** The state after a call of [insert_account]: the email is stored, and
    an account refers to its id. *)
Lemma insert_account_registered (email password username : string)
    (c : Connection) :
  let c' := snd (insert_account email password username c) in
  exists row acc,
    find (same_address email) (tbl_emails (base (database c'))) = Some row
    /\ In acc (tbl_accounts (base (database c')))
    /\ accounts.email_id acc = emails.id row.
Proof.
  cbv zeta.
  destruct (insert_account_run email password username c)
    as (eid & row & c1 & Hrun & Hfind & Hid & Hacc & Hnext & Heq).
  rewrite Heq. cbv zeta. exists row.
  destruct (negb (_ =? 0)) eqn:En; cbn [snd].
  - apply negb_true_iff, Z.eqb_neq in En. unfold count in En.
    destruct (filter (fun r => accounts.email_id r =? eid)
                (tbl_accounts (base (database c)))) as [|acc l] eqn:Ef;
      [simpl in En; lia|].
    assert (Hin : In acc (filter (fun r => accounts.email_id r =? eid)
                            (tbl_accounts (base (database c)))))
      by (rewrite Ef; left; reflexivity).
    apply filter_In in Hin as [Hin Heid]. apply Z.eqb_eq in Heid.
    exists acc. split; [exact Hfind|].
    cbn [sql_count_accounts snd database]. rewrite Hacc. split; [exact Hin|].
    congruence.
  - eexists. split; [exact Hfind|].
    cbn [sql_insert_account sql_count_accounts snd database base with_accounts
         tbl_accounts].
    split; [apply in_or_app; right; left; reflexivity|].
    cbn [new_account accounts.email_id]. symmetry. exact Hid.
Qed.

(** X12: an email address never gets a second account. Whatever the
    first call did, a call of [insert_account] that follows a call for the
    same address returns False and leaves [accounts] as it is, for any
    password and username. *)
Theorem insert_account_twice (email password username password' username' : string)
    (c : Connection) :
  let c' := snd (insert_account email password username c) in
  let second := insert_account email password' username' c' in
  fst second = Ok None
  /\ tbl_accounts (base (database (snd second))) = tbl_accounts (base (database c'))
  /\ next_account_id (database (snd second)) = next_account_id (database c').
Proof.
  cbv zeta.
  destruct (insert_account_registered email password username c)
    as (row & acc & Hfind & Hin & Heid).
  set (c' := snd (insert_account email password username c)) in *.
  destruct (insert_account_run email password' username' c')
    as (eid & row' & c1 & Hrun & Hfind' & Hid & Hacc & Hnext & Heq).
  rewrite Heq. cbv zeta.
  assert (Hsame : eid = emails.id row).
  { rewrite run_eq in Hrun. rewrite get_email_id_run in Hrun.
    cbn [view tables] in Hrun. rewrite Hfind in Hrun.
    cbn [fst] in Hrun. congruence. }
  replace (negb (count (fun r => accounts.email_id r =? eid)
                   (tbl_accounts (base (database c'))) =? 0)) with true.
  - cbn [fst snd sql_count_accounts database]. repeat split; assumption.
  - symmetry. apply negb_true_iff, Z.eqb_neq.
    apply (count_pos_in _ _ acc Hin). apply Z.eqb_eq. congruence.
Qed.

(** X13: [insert_account] keeps "one account per email": when no two
    accounts share an email id before the call, no two share one after
    it. *)
Theorem insert_account_keeps_one_account_per_email (email password username : string)
    (c : Connection) :
  NoDup (map accounts.email_id (tbl_accounts (base (database c)))) ->
  NoDup (map accounts.email_id
           (tbl_accounts (base (database (snd (insert_account email password
                                                 username c)))))).
Proof.
  intros Hnd.
  destruct (insert_account_run email password username c)
    as (eid & row & c1 & Hrun & Hfind & Hid & Hacc & Hnext & Heq).
  rewrite Heq. cbv zeta.
  destruct (negb (_ =? 0)) eqn:En; cbn [snd].
  - cbn [sql_count_accounts snd database]. rewrite Hacc. exact Hnd.
  - cbn [sql_insert_account sql_count_accounts snd database base with_accounts
         tbl_accounts].
    rewrite Hacc, map_app. cbn [map new_account accounts.email_id].
    apply negb_false_iff, Z.eqb_eq in En.
    apply NoDup_app.
    + exact Hnd.
    + constructor; [intros []|constructor].
    + intros x Hx [<-|[]].
      apply in_map_iff in Hx as (acc & Hacc_eid & Hin).
      pose proof (filter_nil_none _ _ acc (count_zero_filter _ _ En) Hin) as Hf.
      simpl in Hf. apply Z.eqb_neq in Hf. contradiction.
Qed.

(** X14: registration and lookup agree. When [insert_account] returns an
    id, [get_account_id] for the same email returns that id and writes
    nothing. *)
Theorem insert_account_then_get_account_id (email password username : string)
    (other : option string) (c : Connection) (id : Z) :
  fst (insert_account email password username c) = Ok (Some id) ->
  let c' := snd (insert_account email password username c) in
  let lookup := run (get_account_id (Some email) other None) c' in
  fst lookup = Ok id
  /\ database (snd lookup) = database c'.
Proof.
  destruct (insert_account_run email password username c)
    as (eid & row & c1 & Hrun & Hfind & Hid & Hacc & Hnext & Heq).
  rewrite Heq. cbv zeta.
  destruct (negb (_ =? 0)) eqn:En; cbn [fst snd]; [discriminate|].
  intros [= <-].
  apply negb_false_iff, Z.eqb_eq in En.
  set (c' := snd (sql_insert_account eid username (password_hash password)
                    PERMISSION_REGISTERED (snd (sql_count_accounts eid c1)))).
  assert (Hemails : find (same_address email) (tbl_emails (tables (view c'))) = Some row)
    by exact Hfind.
  set (q := SELECT_account_by_email_id eid).
  set (w1 := after (SELECT_email_id email) (view c')).
  assert (Hlookup : get_account_id (Some email) other None (view c')
                    = (Ok (next_account_id (database c)), after q w1)).
  { unfold get_account_id. unfold bind at 1.
    rewrite get_email_id_run, Hemails, Hid. cbv beta iota. fold w1 q.
    rewrite (try_index0 q (fun rows => rows) 0 w1). f_equal. f_equal.
    cbn [answered exec fst q].
    change (tbl_accounts (tables w1))
      with (tbl_accounts (base (database c1))
            ++ [new_account (next_account_id (database c1))
                  (conn_now (snd (sql_count_accounts eid c1))) eid username
                  (password_hash password) PERMISSION_REGISTERED]).
    rewrite filter_app, Hacc, (count_zero_filter _ _ En).
    cbn [filter new_account accounts.email_id app]. rewrite Z.eqb_refl.
    cbn [map hd accounts.id]. exact Hnext. }
  rewrite run_eq, Hlookup. cbn [fst snd]. split; reflexivity.
Qed.

(** X15: the default username is the text "NULL". After
    [insert_account] without a username has returned an id, the new row
    carries the four characters NULL as username, and a lookup by the
    username "NULL" succeeds: it returns the id of the first account
    stored under that text. *)
Theorem insert_account_default_username (email password : string)
    (c : Connection) (id : Z) :
  fst (insert_account_default email password c) = Ok (Some id) ->
  let c' := snd (insert_account_default email password c) in
  (exists acc,
     In acc (tbl_accounts (base (database c')))
     /\ accounts.id acc = id /\ accounts.username acc = "NULL"%string)
  /\ exists first,
       find (fun r => String.eqb (accounts.username r) "NULL")
         (tbl_accounts (base (database c'))) = Some first
       /\ fst (run (get_account_id None (Some "NULL"%string) None) c')
          = Ok (accounts.id first).
Proof.
  unfold insert_account_default.
  destruct (insert_account_run email password "NULL" c)
    as (eid & row & c1 & Hrun & Hfind & Hid & Hacc & Hnext & Heq).
  rewrite Heq. cbv zeta.
  destruct (negb (_ =? 0)) eqn:En; cbn [fst snd]; [discriminate|].
  intros [= <-].
  set (c' := snd (sql_insert_account eid "NULL" (password_hash password)
                    PERMISSION_REGISTERED (snd (sql_count_accounts eid c1)))).
  set (new := new_account (next_account_id (database c1))
                (conn_now (snd (sql_count_accounts eid c1))) eid "NULL"
                (password_hash password) PERMISSION_REGISTERED).
  assert (Hrows : tbl_accounts (base (database c'))
                  = tbl_accounts (base (database c1)) ++ [new]) by reflexivity.
  split.
  - exists new. rewrite Hrows. split; [apply in_or_app; right; left; reflexivity|].
    split; [exact Hnext|reflexivity].
  - assert (Hex : exists first,
               find (fun r => String.eqb (accounts.username r) "NULL")
                 (tbl_accounts (base (database c'))) = Some first).
    { rewrite Hrows.
      destruct (find (fun r => String.eqb (accounts.username r) "NULL")
                  (tbl_accounts (base (database c1)))) as [f|] eqn:Ef.
      - exists f. apply find_app_some. exact Ef.
      - exists new. rewrite (find_app_none _ _ _ Ef). reflexivity. }
    destruct Hex as (first & Hfirst). exists first. split; [exact Hfirst|].
    rewrite run_eq. cbn [fst]. unfold get_account_id.
    rewrite (try_index0 (SELECT_account_by_username "NULL") (fun rows => rows) 0 (view c')).
    cbn [fst answered exec view tables]. rewrite hd_map_filter, Hfirst. reflexivity.
Qed.

End Insert.

Section RegisterAndLogin.
Context {params : Params} {constants : Constants} {hashing : Hash}.

(** X16: register, then log in. When [insert_account] returns an id that
    no older account carries, and [password_check] accepts the password
    against its own [password_hash], a [login] with that id and password
    (without throttling) has status 1, no error, and the permission
    PERMISSION_REGISTERED and the username of the registration. *)
Theorem insert_account_then_login (email password username : string)
    (c : Connection) (id : Z) :
  fst (insert_account email password username c) = Ok (Some id) ->
  (forall acc, In acc (tbl_accounts (base (database c))) -> accounts.id acc <> id) ->
  password_check password (password_hash password) = true ->
  let c' := snd (insert_account email password username c) in
  exists res data,
    fst (run (login (Some id) password None None) c') = Ok res
    /\ status res = 1
    /\ errors res = []
    /\ account res = Some data
    /\ data_id data = Some id
    /\ data_username data = username
    /\ data_permission data = PERMISSION_REGISTERED.
Proof.
  destruct (insert_account_run email password username c)
    as (eid & row & c1 & Hrun & Hfind & Hid & Hacc & Hnext & Heq).
  rewrite Heq. cbv zeta.
  destruct (negb (_ =? 0)) eqn:En; cbn [fst snd]; [discriminate|].
  intros [= <-] Hfresh Hcheck.
  set (c' := snd (sql_insert_account eid username (password_hash password)
                    PERMISSION_REGISTERED (snd (sql_count_accounts eid c1)))).
  set (new := new_account (next_account_id (database c1))
                (conn_now (snd (sql_count_accounts eid c1))) eid username
                (password_hash password) PERMISSION_REGISTERED).
  rewrite run_eq. cbn [fst].
  rewrite (login_plain (Some (next_account_id (database c))) password None None
             (view c') (or_introl eq_refl)).
  cbn [fst].
  assert (Hrows : answered (SELECT_login_data (Some (next_account_id (database c))))
                    (view c') = [new]).
  { cbn [answered exec fst view tables].
    change (tbl_accounts (base (database c')))
      with (tbl_accounts (base (database c1)) ++ [new]).
    rewrite filter_app, Hacc.
    replace (filter (fun r => accounts.id r =? next_account_id (database c))
               (tbl_accounts (base (database c)))) with (@nil accounts.row).
    - cbn [app filter new new_account accounts.id]. rewrite Hnext, Z.eqb_refl.
      reflexivity.
    - symmetry. clear - Hfresh.
      induction (tbl_accounts (base (database c))) as [|a l IH]; [reflexivity|].
      simpl. destruct (accounts.id a =? next_account_id (database c)) eqn:E.
      + apply Z.eqb_eq in E. exfalso. exact (Hfresh a (or_introl eq_refl) E).
      + apply IH. intros r Hr. apply Hfresh. right. exact Hr. }
  rewrite Hrows. unfold check_credentials.
  cbn [new new_account accounts.password]. rewrite Hcheck.
  eexists _, _. cbn [fst snd status errors account].
  repeat split.
Qed.

End RegisterAndLogin.

(** *** The theorems at concrete inputs *)

Lemma insert_account_keeps_one_account_per_email_witness :
  NoDup (map accounts.email_id
           (tbl_accounts
              (base (database (snd (insert_account (params := MoreExamples.params)
                                      "bob@example.org" "hunter2" "bob"
                                      MoreExamples.connection)))))).
Proof.
  apply (insert_account_keeps_one_account_per_email (params := MoreExamples.params)
           "bob@example.org" "hunter2" "bob" MoreExamples.connection).
  simpl. constructor; [intros []|constructor].
Defined.

Lemma insert_account_then_get_account_id_witness :
  fst (run (get_account_id (Some "bob@example.org"%string) None None)
         (snd (insert_account (params := MoreExamples.params)
                 "bob@example.org" "hunter2" "bob" MoreExamples.connection)))
  = Ok 2.
Proof.
  apply (insert_account_then_get_account_id (params := MoreExamples.params)
           "bob@example.org" "hunter2" "bob" None MoreExamples.connection 2).
  reflexivity.
Defined.

Lemma insert_account_default_username_witness :
  exists first,
    find (fun r => String.eqb (accounts.username r) "NULL")
      (tbl_accounts
         (base (database (snd (insert_account_default (params := MoreExamples.params)
                                 "bob@example.org" "hunter2"
                                 MoreExamples.connection)))))
    = Some first
    /\ fst (run (get_account_id None (Some "NULL"%string) None)
              (snd (insert_account_default (params := MoreExamples.params)
                      "bob@example.org" "hunter2" MoreExamples.connection)))
       = Ok (accounts.id first).
Proof.
  apply (insert_account_default_username (params := MoreExamples.params)
           "bob@example.org" "hunter2" MoreExamples.connection 2).
  reflexivity.
Defined.

Lemma insert_account_then_login_witness :
  exists res data,
    fst (run (login (constants := Examples.constants) (hashing := Examples.hash)
                (Some 2) "hunter2" None None)
           (snd (insert_account (params := MoreExamples.params)
                   "bob@example.org" "hunter2" "bob" MoreExamples.connection)))
    = Ok res
    /\ status res = 1
    /\ errors res = []
    /\ account res = Some data
    /\ data_id data = Some 2
    /\ data_username data = "bob"%string
    /\ data_permission data = 1.
Proof.
  apply (insert_account_then_login (params := MoreExamples.params)
           (constants := Examples.constants) (hashing := Examples.hash)
           "bob@example.org" "hunter2" "bob" MoreExamples.connection 2).
  - reflexivity.
  - intros acc [<-|[]]. discriminate.
  - reflexivity.
Defined.

End RegistrationProofs.

(** ** Properties of [Email.validate_address] *)
Module AddressesProofs.

Import Addresses.
Local Open Scope string_scope.

Lemma split_without (sep : ascii) (s : string) :
  contains sep s = false -> split sep s = [s].
Proof.
  induction s as [|c s IH]; [reflexivity|].
  simpl. destruct (Ascii.eqb c sep); [discriminate|].
  simpl. intros Hs. rewrite (IH Hs). reflexivity.
Qed.

Lemma split_at_first (sep : ascii) (l r : string) :
  contains sep l = false ->
  split sep (l ++ String sep r) = l :: split sep r.
Proof.
  induction l as [|c l IH]; simpl.
  - intros _. rewrite Ascii.eqb_refl. reflexivity.
  - destruct (Ascii.eqb c sep); [discriminate|]. simpl.
    intros Hl. rewrite (IH Hl). reflexivity.
Qed.

Lemma first_occurrence (sep : ascii) (s : string) :
  contains sep s = true ->
  exists l r, s = l ++ String sep r /\ contains sep l = false.
Proof.
  induction s as [|c s IH]; [discriminate|].
  simpl. destruct (Ascii.eqb c sep) eqn:E.
  - intros _. apply Ascii.eqb_eq in E. subst c. exists "", s. split; reflexivity.
  - simpl. intros Hs. destruct (IH Hs) as (l & r & -> & Hl).
    exists (String c l), r. split; [reflexivity|]. simpl. rewrite E. exact Hl.
Qed.

Lemma append_empty (s : string) : s ++ "" = s.
Proof. induction s as [|c s IH]; [reflexivity|]. simpl. rewrite IH. reflexivity. Qed.

(** The piece [split(sep)[1]]: the text between the first and the second
    separator. *)
Lemma second_piece (sep : ascii) (s piece : string) :
  nth_error (split sep s) 1 = Some piece ->
  exists l rest,
    s = l ++ String sep (piece ++ rest)
    /\ contains sep l = false
    /\ contains sep piece = false
    /\ (rest = "" \/ first_is sep rest = true).
Proof.
  intros Hnth.
  destruct (contains sep s) eqn:Es.
  2:{ rewrite (split_without sep s Es) in Hnth. discriminate. }
  destruct (first_occurrence sep s Es) as (l & r & -> & Hl).
  rewrite (split_at_first sep l r Hl) in Hnth. cbn [nth_error] in Hnth.
  exists l.
  destruct (contains sep r) eqn:Er.
  - destruct (first_occurrence sep r Er) as (d & r' & -> & Hd).
    rewrite (split_at_first sep d r' Hd) in Hnth. injection Hnth as <-.
    exists (String sep r'). repeat split; auto.
    right. simpl. apply Ascii.eqb_refl.
  - rewrite (split_without sep r Er) in Hnth. injection Hnth as <-.
    exists "". rewrite append_empty. repeat split; auto.
Qed.

Lemma contains_last (c : ascii) (s : string) :
  contains c s = false -> last_is c s = false.
Proof.
  induction s as [|x s IH]; [reflexivity|].
  simpl. destruct (Ascii.eqb x c) eqn:E; [discriminate|]. simpl.
  intros Hs. destruct s; [reflexivity|]. apply IH. exact Hs.
Qed.

Lemma last_is_append (c : ascii) (l d : string) :
  d <> "" -> last_is c (l ++ d) = last_is c d.
Proof.
  intros Hd. induction l as [|x l IH]; [reflexivity|].
  simpl. destruct (l ++ d) eqn:E; [|exact IH].
  destruct l; [contradiction|discriminate].
Qed.

(** X17: an address without an at sign does not get the ValueError of
    an invalid address: [validate_address] raises IndexError exactly
    when the address holds no ['@'] (the empty address included). *)
Theorem validate_address_index_error (address : string) :
  validate_address address = Raises_IndexError <-> contains "@" address = false.
Proof.
  unfold validate_address. split.
  - destruct (contains "@" address) eqn:E; [|reflexivity].
    destruct (first_occurrence "@" address E) as (l & r & -> & Hl).
    rewrite (split_at_first "@" l r Hl). cbn [nth_error].
    destruct (split "@" r) as [|p ps] eqn:Esplit.
    + destruct r; simpl in Esplit; [discriminate|].
      destruct (Ascii.eqb a "@"); [discriminate|].
      destruct (split "@" r); discriminate.
    + destruct (negb (contains "." p)); [discriminate|].
      destruct (_ || _); discriminate.
  - intros Hnone. rewrite (split_without "@" address Hnone). reflexivity.
Qed.

(** X18: what an accepted address looks like. When [validate_address]
    returns, it returns the address unchanged, and the address is a
    non-empty text without ['@'], an ['@'], a piece without ['@'] that
    holds a dot, and a rest that is empty or starts with another ['@'];
    it does not end with ['@']. *)
Theorem validate_address_sound (address returned : string) :
  validate_address address = Returns returned ->
  returned = address
  /\ exists local domain rest,
       address = local ++ String "@" (domain ++ rest)
       /\ local <> ""
       /\ contains "@" local = false
       /\ contains "@" domain = false
       /\ contains "." domain = true
       /\ (rest = "" \/ first_is "@" rest = true)
       /\ last_is "@" address = false.
Proof.
  unfold validate_address.
  destruct (nth_error (split "@" address) 1) as [piece|] eqn:Hnth; [|discriminate].
  destruct (contains "." piece) eqn:Hdot; [|discriminate]. cbn [negb].
  destruct (first_is "@" address) eqn:Hfirst; [discriminate|].
  destruct (last_is "@" address) eqn:Hlast; [discriminate|]. cbn [orb].
  intros [= <-]. split; [reflexivity|].
  destruct (second_piece "@" address piece Hnth) as (l & rest & Heq & Hl & Hp & Hrest).
  exists l, piece, rest. repeat split; auto.
  intros ->. rewrite Heq in Hfirst. simpl in Hfirst. discriminate.
Qed.

(** X19: every ordinary address is accepted: a non-empty local part
    without ['@'], an ['@'], and a domain without ['@'] that holds a
    dot. *)
Theorem validate_address_accepts (local domain : string) :
  local <> "" ->
  contains "@" local = false ->
  contains "@" domain = false ->
  contains "." domain = true ->
  validate_address (local ++ String "@" domain)
  = Returns (local ++ String "@" domain).
Proof.
  intros Hne Hl Hd Hdot. unfold validate_address.
  rewrite (split_at_first "@" local domain Hl), (split_without "@" domain Hd).
  cbn [nth_error]. rewrite Hdot. cbn [negb].
  assert (Hfirst : first_is "@" (local ++ String "@" domain) = false).
  { destruct local as [|c l]; [contradiction|].
    simpl in Hl |- *. destruct (Ascii.eqb c "@"); [discriminate|reflexivity]. }
  assert (Hlast : last_is "@" (local ++ String "@" domain) = false).
  { rewrite last_is_append by discriminate.
    destruct domain as [|c d]; [discriminate|].
    change (last_is "@" (String "@" (String c d))) with (last_is "@" (String c d)).
    apply contains_last. exact Hd. }
  rewrite Hfirst, Hlast. reflexivity.
Qed.

(** X20: the dot is only looked for between the first and the second
    ['@']: an address whose piece after the first ['@'] has no dot is
    refused with ValueError, whatever follows a second ['@']. *)
Theorem validate_address_dot_after_first_at (local piece rest : string) :
  contains "@" local = false ->
  contains "@" piece = false ->
  contains "." piece = false ->
  validate_address (local ++ String "@" (piece ++ String "@" rest))
  = Raises_ValueError.
Proof.
  intros Hl Hp Hdot. unfold validate_address.
  rewrite (split_at_first "@" local _ Hl), (split_at_first "@" piece rest Hp).
  cbn [nth_error]. rewrite Hdot. reflexivity.
Qed.

(** *** The theorems at concrete inputs *)

Lemma validate_address_sound_witness :
  "a@b.c" = "a@b.c"
  /\ exists local domain rest,
       "a@b.c" = local ++ String "@" (domain ++ rest)
       /\ local <> ""
       /\ contains "@" local = false
       /\ contains "@" domain = false
       /\ contains "." domain = true
       /\ (rest = "" \/ first_is "@" rest = true)
       /\ last_is "@" "a@b.c" = false.
Proof.
  apply (validate_address_sound "a@b.c" "a@b.c"). reflexivity.
Defined.

Lemma validate_address_accepts_witness :
  validate_address "carol@example.org" = Returns "carol@example.org".
Proof.
  apply (validate_address_accepts "carol" "example.org").
  - discriminate.
  - reflexivity.
  - reflexivity.
  - reflexivity.
Defined.

Lemma validate_address_dot_after_first_at_witness :
  validate_address "a@b@c.d" = Raises_ValueError.
Proof.
  apply (validate_address_dot_after_first_at "a" "b" "c.d"); reflexivity.
Defined.

End AddressesProofs.

(** ** Further properties of the persistent sessions *)
Module ModelsExtras.

Import Models ModelsProofs.

Section Sessions.
Context {hashing : Hash}.

(** A successful validation, read backwards. *)
Lemma get_session_success (now : Z) (fresh : string) (user : option User.row)
    (token identifier : string) (o o' : Orm) (s : PersistentLogin.row)
    (tok : string) :
  get_session now fresh user token identifier o = (Ok (Some (s, tok)), o') ->
  exists session,
    find (has_token (quick_hash token)) (tbl_PersistentLogin (working o)) = Some session
    /\ PersistentLogin.identifier session = identifier
    /\ session_user_identifier (working o) session = Ok (slice_32_64 identifier)
    /\ tok = fresh
    /\ s = with_token fresh session
    /\ o' = rotate_in now fresh session o.
Proof.
  rewrite get_session_run.
  destruct (find (has_token (quick_hash token)) (tbl_PersistentLogin (working o)))
    as [session|]; [|discriminate].
  destruct (session_user_identifier (working o) session) as [uid|e] eqn:Eu;
    [|discriminate].
  destruct (String.eqb (PersistentLogin.identifier session) identifier) eqn:Eid;
    cbn [negb].
  2:{ destruct (String.eqb _ uid); discriminate. }
  destruct (String.eqb (slice_32_64 (PersistentLogin.identifier session)) uid) eqn:Eh;
    cbn [negb]; [|discriminate].
  intros [= <- <- <-]. apply String.eqb_eq in Eid, Eh. subst identifier uid.
  exists session. repeat split. exact Eu.
Qed.

(** X21: [get_session] hands a session out only to the holder of both
    values. When it returns a session, a stored session has the hash of
    the supplied token, its stored identifier is the supplied identifier,
    and the second half of that identifier is the current identifier of
    its account; the token returned is the fresh one, the row returned is
    the stored one with the hash of the fresh token, and the rotation is
    pending: the committed rows are not changed by the call. *)
Theorem get_session_sound (now : Z) (fresh : string) (user : option User.row)
    (token identifier : string) (o o' : Orm) (s : PersistentLogin.row)
    (tok : string) :
  get_session now fresh user token identifier o = (Ok (Some (s, tok)), o') ->
  (exists session,
     find (has_token (quick_hash token)) (tbl_PersistentLogin (working o)) = Some session
     /\ PersistentLogin.identifier session = identifier
     /\ session_user_identifier (working o) session = Ok (slice_32_64 identifier)
     /\ PersistentLogin.row_id s = PersistentLogin.row_id session
     /\ PersistentLogin.user_id s = PersistentLogin.user_id session)
  /\ tok = fresh
  /\ PersistentLogin.identifier s = identifier
  /\ PersistentLogin.token s = quick_hash fresh
  /\ committed o' = committed o
  /\ tbl_User (working o') = tbl_User (working o)
  /\ tbl_Email (working o') = tbl_Email (working o).
Proof.
  intros Hget.
  destruct (get_session_success now fresh user token identifier o o' s tok Hget)
    as (session & Hfind & Hid & Huid & -> & -> & ->).
  split; [exists session; repeat split; assumption|].
  repeat split. exact Hid.
Qed.

(** X22: [get_session] never touches users or emails and never makes a
    session: after any call, the [User] and [Email] tables and the id
    counter are as before, there are at most as many sessions as before,
    and every stored session has the row id, user, identifier and
    creation time of a session that was stored before. *)
Theorem get_session_frame (now : Z) (fresh : string) (user : option User.row)
    (token identifier : string) (o : Orm) :
  let o' := snd (get_session now fresh user token identifier o) in
  tbl_User (working o') = tbl_User (working o)
  /\ tbl_Email (working o') = tbl_Email (working o)
  /\ next_PersistentLogin_id (working o') = next_PersistentLogin_id (working o)
  /\ (List.length (tbl_PersistentLogin (working o'))
      <= List.length (tbl_PersistentLogin (working o)))%nat
  /\ forall p', In p' (tbl_PersistentLogin (working o')) ->
       exists p, In p (tbl_PersistentLogin (working o))
                 /\ PersistentLogin.row_id p' = PersistentLogin.row_id p
                 /\ PersistentLogin.user_id p' = PersistentLogin.user_id p
                 /\ PersistentLogin.identifier p' = PersistentLogin.identifier p
                 /\ PersistentLogin.created p' = PersistentLogin.created p.
Proof.
  cbv zeta. rewrite get_session_run.
  assert (Hsame : forall o0 : Orm,
            (List.length (tbl_PersistentLogin (working o0))
             <= List.length (tbl_PersistentLogin (working o0)))%nat
            /\ forall p', In p' (tbl_PersistentLogin (working o0)) ->
                 exists p, In p (tbl_PersistentLogin (working o0))
                           /\ PersistentLogin.row_id p' = PersistentLogin.row_id p
                           /\ PersistentLogin.user_id p' = PersistentLogin.user_id p
                           /\ PersistentLogin.identifier p' = PersistentLogin.identifier p
                           /\ PersistentLogin.created p' = PersistentLogin.created p).
  { intros o0. split; [lia|]. intros p' Hp'. exists p'. repeat split. exact Hp'. }
  destruct (find (has_token (quick_hash token)) (tbl_PersistentLogin (working o)))
    as [session|]; [|cbn [snd]; repeat split; apply Hsame].
  destruct (session_user_identifier (working o) session) as [uid|e];
    [|cbn [snd]; repeat split; apply Hsame].
  destruct (negb (String.eqb (PersistentLogin.identifier session) identifier)).
  - destruct (String.eqb _ uid); cbn [snd]; repeat split; apply Hsame.
  - destruct (negb (String.eqb _ uid)); [cbn [snd]; repeat split; apply Hsame|].
    cbn [snd rotate_in working with_PersistentLogin tbl_User tbl_Email
         tbl_PersistentLogin next_PersistentLogin_id].
    repeat split.
    + rewrite length_map. lia.
    + intros p' Hp'. apply in_map_iff in Hp' as (p & <- & Hp).
      exists p. split; [exact Hp|].
      destruct (PersistentLogin.row_id p =? PersistentLogin.row_id session);
        repeat split.
Qed.

Lemma find_map_at {A : Type} (g : A -> bool) (f : A -> A) (l : list A) (x s : A) :
  In x l -> g (f x) = true ->
  (forall p, In p l -> g (f p) = true -> f p = s) ->
  find g (map f l) = Some s.
Proof.
  intros Hin Hg Hall. induction l as [|a l IH]; [contradiction|].
  simpl. destruct (g (f a)) eqn:E.
  - f_equal. apply Hall; [left; reflexivity|exact E].
  - destruct Hin as [->|Hin]; [congruence|].
    apply IH; [exact Hin|]. intros p Hp. apply Hall. right. exact Hp.
Qed.

(** X23: the rotation chain goes on. With unique row ids and a fresh
    token whose hash no stored session holds, after a validation has
    returned the fresh token, a validation with that token and the same
    identifier succeeds again, on the same session row, and rotates it
    to the next token. The row it returns is the stored one, written by
    the flush of the first rotation, with the hash of the next token. *)
Theorem get_session_accepts_new_token (now : Z) (fresh : string)
    (user : option User.row) (token identifier : string) (o o' : Orm)
    (s : PersistentLogin.row) (tok : string) :
  NoDup (map PersistentLogin.row_id (tbl_PersistentLogin (working o))) ->
  (forall p, In p (tbl_PersistentLogin (working o)) ->
             PersistentLogin.token p <> quick_hash fresh) ->
  get_session now fresh user token identifier o = (Ok (Some (s, tok)), o') ->
  forall now' fresh' user',
    get_session now' fresh' user' tok identifier o'
    = (Ok (Some (with_token fresh' (rotated now fresh s), fresh')),
       rotate_in now' fresh' s o').
Proof.
  intros Hids Hunused Hget now' fresh' user'.
  destruct (get_session_success now fresh user token identifier o o' s tok Hget)
    as (session & Hfind & Hid & Huid & -> & -> & ->).
  apply find_some in Hfind as [Hin Htok].
  rewrite get_session_run.
  assert (Hfound : find (has_token (quick_hash fresh))
                     (tbl_PersistentLogin (working (rotate_in now fresh session o)))
                   = Some (rotated now fresh session)).
  { cbn [rotate_in working with_PersistentLogin tbl_PersistentLogin].
    apply (find_map_at _ _ _ session).
    - exact Hin.
    - rewrite Z.eqb_refl. unfold has_token. cbn [rotated PersistentLogin.token].
      apply String.eqb_refl.
    - intros p Hp.
      destruct (PersistentLogin.row_id p =? PersistentLogin.row_id session) eqn:E.
      + intros _. apply Z.eqb_eq in E.
        rewrite (NoDup_map_eq PersistentLogin.row_id _ p session Hids Hp Hin E).
        reflexivity.
      + unfold has_token. intros Hh. apply String.eqb_eq in Hh.
        exfalso. exact (Hunused p Hp Hh). }
  rewrite Hfound.
  change (session_user_identifier (working (rotate_in now fresh session o))
            (rotated now fresh session))
    with (session_user_identifier (working o) session).
  rewrite Huid. cbn [rotated PersistentLogin.identifier]. rewrite Hid.
  rewrite !String.eqb_refl. reflexivity.
Qed.

(** X24: a rotation keeps the token column unique: with unique tokens
    and unique row ids, and a fresh token whose hash no stored session
    holds, the tokens are still unique after a successful validation. *)
Theorem get_session_keeps_tokens_unique (now : Z) (fresh : string)
    (user : option User.row) (token identifier : string) (o o' : Orm)
    (r : PersistentLogin.row * string) :
  unique_tokens (working o) ->
  NoDup (map PersistentLogin.row_id (tbl_PersistentLogin (working o))) ->
  (forall p, In p (tbl_PersistentLogin (working o)) ->
             PersistentLogin.token p <> quick_hash fresh) ->
  get_session now fresh user token identifier o = (Ok (Some r), o') ->
  unique_tokens (working o').
Proof.
  intros Huniq Hids Hunused Hget. destruct r as [s tok].
  destruct (get_session_success now fresh user token identifier o o' s tok Hget)
    as (session & _ & _ & _ & _ & _ & ->).
  unfold unique_tokens in *.
  cbn [rotate_in working with_PersistentLogin tbl_PersistentLogin].
  set (i := PersistentLogin.row_id session).
  induction (tbl_PersistentLogin (working o)) as [|a l IH]; [constructor|].
  cbn [map] in *. inversion Huniq as [|? ? Hta Hul]; subst.
  inversion Hids as [|? ? Hia Hil]; subst.
  assert (Hunused' : forall p, In p l -> PersistentLogin.token p <> quick_hash fresh)
    by (intros p Hp; apply Hunused; right; exact Hp).
  specialize (IH Hul Hil Hunused').
  constructor; [|exact IH].
  intros Hin. apply in_map_iff in Hin as (x & Hx & Hxin).
  apply in_map_iff in Hxin as (p & <- & Hp).
  destruct (PersistentLogin.row_id p =? i) eqn:Ep,
           (PersistentLogin.row_id a =? i) eqn:Ea;
    cbn [rotated PersistentLogin.token] in Hx.
  - apply Z.eqb_eq in Ep, Ea. apply Hia. rewrite Ea, <- Ep.
    apply in_map. exact Hp.
  - apply (Hunused a (or_introl eq_refl)). symmetry. exact Hx.
  - apply (Hunused' p Hp). exact Hx.
  - apply Hta. rewrite <- Hx. apply in_map. exact Hp.
Qed.

(** X25: issue, then validate. A session built by
    [PersistentLogin.__init__] for a stored user, from a seed and hashes
    of 32 characters and a token whose hash no other session holds, is
    accepted by [get_session] with that token and its own identifier: the
    call returns the session with the fresh token. *)
Theorem issue_then_validate (t now : Z) (seed fresh token : string)
    (u : User.row) (any : option User.row) (o o1 : Orm)
    (p : PersistentLogin.row) :
  String.length seed = 32%nat ->
  (forall x, String.length (quick_hash x) = 32%nat) ->
  find (fun x => User.row_id x =? User.row_id u) (tbl_User (working o)) = Some u ->
  find (has_token (quick_hash token)) (tbl_PersistentLogin (working o)) = None ->
  PersistentLogin_init t seed u token o = (Ok p, o1) ->
  get_session now fresh any token (PersistentLogin.identifier p) o1
  = (Ok (Some (with_token fresh p, fresh)), rotate_in now fresh p o1).
Proof.
  intros Hseed Hlen Huser Hnew Hinit.
  destruct (PersistentLogin_init_second_half t seed u token o o1 p Hseed Hlen Hinit)
    as [Huid _].
  revert Hinit Huid. unfold PersistentLogin_init, bind, lift_result.
  destruct (User_identifier (working o) u) as [uid|e] eqn:Euid; [|discriminate].
  intros [= <- <-] Huid. injection Huid as Huid.
  rewrite get_session_run.
  cbn [working tbl_PersistentLogin].
  rewrite (CoreExtras.find_app_none _ _ _ Hnew).
  unfold find at 1. unfold has_token at 1. cbn [PersistentLogin.token].
  rewrite String.eqb_refl.
  unfold session_user_identifier, user_of.
  cbn [tbl_User PersistentLogin.user_id]. rewrite Huser.
  change (User_identifier _ u) with (User_identifier (working o) u).
  rewrite Euid. cbn [PersistentLogin.identifier] in Huid |- *.
  rewrite String.eqb_refl. cbn [negb]. rewrite <- Huid, String.eqb_refl.
  reflexivity.
Qed.

(** X26: a password change of one user leaves the sessions of the
    others valid. When the session that holds the token belongs to a
    user other than the one whose password is changed, [get_session]
    returns the same value after the change as before it. *)
Theorem password_change_spares_other_users (t now : Z) (password fresh : string)
    (changed : Z) (user : option User.row) (token identifier : string) (o : Orm)
    (session : PersistentLogin.row) (u : User.row) :
  let o' := {| working := change_password t changed password (working o);
               committed := committed o |} in
  find (has_token (quick_hash token)) (tbl_PersistentLogin (working o)) = Some session ->
  user_of (working o) session = Some u ->
  User.row_id u <> changed ->
  fst (get_session now fresh user token identifier o')
  = fst (get_session now fresh user token identifier o).
Proof.
  intros o' Hfind Huser Hother.
  rewrite !get_session_run.
  change (tbl_PersistentLogin (working o')) with (tbl_PersistentLogin (working o)).
  rewrite Hfind.
  assert (Hsame : session_user_identifier (working o') session
                  = session_user_identifier (working o) session).
  { unfold session_user_identifier, user_of.
    cbn [o' working change_password with_User tbl_User].
    rewrite find_map_same.
    2:{ intros x. destruct (User.row_id x =? changed); reflexivity. }
    fold (user_of (working o) session). rewrite Huser. cbn [option_map].
    replace (User.row_id u =? changed) with false
      by (symmetry; apply Z.eqb_neq; exact Hother).
    reflexivity. }
  rewrite Hsame.
  destruct (session_user_identifier (working o) session) as [uid|e]; [|reflexivity].
  destruct (negb (String.eqb (PersistentLogin.identifier session) identifier)).
  - destruct (String.eqb _ uid); reflexivity.
  - destruct (negb (String.eqb _ uid)); reflexivity.
Qed.

End Sessions.

(** *** The theorems at concrete inputs *)

Lemma get_session_sound_witness :
  "u2"%string = "u2"%string
  /\ PersistentLogin.identifier (with_token (hashing := Examples.session_hash) "u2"
                                   MoreExamples.issued_session)
     = Examples.issued_identifier.
Proof.
  destruct (get_session_sound (hashing := Examples.session_hash) 30 "u2" None "t1"
              Examples.issued_identifier Examples.issued Examples.validated
              (with_token (hashing := Examples.session_hash) "u2"
                 MoreExamples.issued_session)
              "u2" eq_refl) as (_ & Htok & Hid & _).
  split; assumption.
Defined.

Lemma get_session_accepts_new_token_witness :
  fst (get_session (hashing := Examples.session_hash) 40 "v3" None "u2"
         Examples.issued_identifier Examples.validated)
  = Ok (Some (with_token (hashing := Examples.session_hash) "v3"
                (rotated (hashing := Examples.session_hash) 30 "u2"
                   MoreExamples.issued_session),
              "v3"%string)).
Proof.
  rewrite (get_session_accepts_new_token (hashing := Examples.session_hash) 30 "u2"
             None "t1" Examples.issued_identifier Examples.issued Examples.validated
             (with_token (hashing := Examples.session_hash) "u2"
                MoreExamples.issued_session) "u2").
  - reflexivity.
  - simpl. constructor; [intros []|constructor].
  - intros p [<-|[]]. discriminate.
  - reflexivity.
Defined.

Lemma get_session_keeps_tokens_unique_witness :
  unique_tokens (working Examples.validated).
Proof.
  apply (get_session_keeps_tokens_unique (hashing := Examples.session_hash) 30 "u2"
           None "t1" Examples.issued_identifier Examples.issued Examples.validated
           (with_token (hashing := Examples.session_hash) "u2"
              MoreExamples.issued_session, "u2"%string)).
  - unfold unique_tokens. simpl. constructor; [intros []|constructor].
  - simpl. constructor; [intros []|constructor].
  - intros p [<-|[]]. discriminate.
  - reflexivity.
Defined.

Lemma issue_then_validate_witness :
  fst (get_session (hashing := Examples.session_hash) 30 "u2" None "t1"
         Examples.issued_identifier Examples.issued)
  = Ok (Some (with_token (hashing := Examples.session_hash) "u2"
                MoreExamples.issued_session, "u2"%string)).
Proof.
  change Examples.issued_identifier
    with (PersistentLogin.identifier MoreExamples.issued_session).
  rewrite (issue_then_validate (hashing := Examples.session_hash) 20 30
             Examples.seed "u2" "t1" Examples.carol None Examples.no_sessions
             Examples.issued MoreExamples.issued_session).
  - reflexivity.
  - reflexivity.
  - intros x. reflexivity.
  - reflexivity.
  - reflexivity.
  - reflexivity.
Defined.

Lemma password_change_spares_other_users_witness :
  fst (get_session (hashing := Examples.session_hash) 60 "u2" None "t1"
         Examples.issued_identifier
         {| working := change_password (hashing := Examples.session_hash) 50 2 "new"
                         (working MoreExamples.two_users_issued);
            committed := committed MoreExamples.two_users_issued |})
  = fst (get_session (hashing := Examples.session_hash) 60 "u2" None "t1"
           Examples.issued_identifier MoreExamples.two_users_issued).
Proof.
  apply (password_change_spares_other_users (hashing := Examples.session_hash)
           50 60 "new" "u2" 2 None "t1" Examples.issued_identifier
           MoreExamples.two_users_issued MoreExamples.issued_session Examples.carol).
  - reflexivity.
  - reflexivity.
  - discriminate.
Defined.

End ModelsExtras.
